(** * git-summary: a shallow embedding of [lib/gitsum.py] and [gitsum.py]

    The two Python files are the newer ([lib/gitsum.py]) and the older
    ([gitsum.py]) variant of the same tool.  The version-control library
    (pygit2) and the file system are outside the repository: the file system
    is a finite tree of entries, the library calls are fields of a
    [Repository] record or variables of a section. *)

From Stdlib Require Import ZArith List String Ascii Bool Lia.
From Stdlib Require Import DecimalString.
From Stdlib Require Import Sorted Permutation DecimalPos.
Import ListNotations.

Local Open Scope list_scope.
Local Open Scope string_scope.

(** ** Python strings

    A [str] is a [string]; one [ascii] stands for one character. *)

Module PyStr.

(** [len(s)]. *)
Definition len (s : string) : nat := String.length s.

(** [' ' * n]. *)
Fixpoint spaces (n : nat) : string :=
  match n with
  | O => ""
  | S n' => String " " (spaces n')
  end.

(** The format specification [{s:<{width}}]: left-justified, padded with
    spaces up to [width], never truncated. *)
Definition ljust (s : string) (width : nat) : string :=
  s ++ spaces (width - len s).

(** [str(n)] for an [int]. *)
Definition str_of_int (n : Z) : string :=
  NilZero.string_of_int (Z.to_int n).

(** [s[:n]]. *)
Fixpoint take (n : nat) (s : string) : string :=
  match n, s with
  | S n', String c s' => String c (take n' s')
  | _, _ => ""
  end.

(** [s.startswith(p)]. *)
Fixpoint startswith (p s : string) : bool :=
  match p, s with
  | EmptyString, _ => true
  | String a p', String b s' => Ascii.eqb a b && startswith p' s'
  | String _ _, EmptyString => false
  end.

(** [needle in hay]. *)
Fixpoint contains (needle hay : string) : bool :=
  startswith needle hay ||
  match hay with
  | EmptyString => false
  | String _ hay' => contains needle hay'
  end.

(** [s.endswith("/")]. *)
Fixpoint endswith_slash (s : string) : bool :=
  match s with
  | EmptyString => false
  | String c EmptyString => Ascii.eqb c "/"
  | String _ s' => endswith_slash s'
  end.

(** [sep.join(parts)]. *)
Fixpoint join (sep : string) (parts : list string) : string :=
  match parts with
  | [] => ""
  | [p] => p
  | p :: rest => p ++ sep ++ join sep rest
  end.

End PyStr.

(** ** Exceptions and results *)

Inductive exn : Type :=
| ValueError
| GitError
| KeyError
| AttributeError
| PermissionError.

Inductive result (A : Type) : Type :=
| Ok (a : A)
| Raise (e : exn).

Arguments Ok {A} a.
Arguments Raise {A} e.

(** ** The status record ([RepoStatus], the same class in both files) *)

Record RepoStatus : Type := mkRepoStatus {
  name : string;
  head : string;
  is_local : bool;
  has_changes : bool;
  branch_has_upstream : bool;
  local_ahead : Z;
  local_behind : Z
}.

Definition is_up_to_date (self : RepoStatus) : bool :=
  negb (has_changes self) &&
  (negb (branch_has_upstream self) ||
   ((local_ahead self =? 0)%Z && (local_behind self =? 0)%Z)).

(** The widths are lengths, hence naturals. *)
Definition to_string (self : RepoStatus) (name_width head_width : nat) : string :=
  (if negb (is_up_to_date self) then "!" else " ")
  ++ "  "
  ++ PyStr.ljust (name self) name_width
  ++ "  "
  ++ (if is_local self then "[LR]"
      else if negb (branch_has_upstream self) then "[LB]" else "    ")
  ++ "  "
  ++ PyStr.ljust (head self) head_width
  ++ " "
  ++ (if has_changes self then " *" else "  ")
  ++ (if (local_ahead self >? 0)%Z
      then " >" ++ PyStr.str_of_int (local_ahead self) else "   ")
  ++ (if (local_behind self >? 0)%Z
      then " <" ++ PyStr.str_of_int (local_behind self) else "   ").

(** [__str__]. *)
Definition str_RepoStatus (self : RepoStatus) : string := to_string self 0 0.

(** ** Input and output

    The program writes lines to standard output and to standard error; a
    computation takes the lines written so far and returns its result, or
    the exception it raised, with the lines written until then. *)

Record World : Type := mkWorld {
  stdout : list string;
  stderr : list string
}.

Definition IO (A : Type) : Type := World -> result A * World.

Definition ret {A} (a : A) : IO A := fun w => (Ok a, w).

Definition bind {A B} (m : IO A) (k : A -> IO B) : IO B :=
  fun w =>
    match m w with
    | (Ok a, w') => k a w'
    | (Raise e, w') => (Raise e, w')
    end.

Definition raise {A} (e : exn) : IO A := fun w => (Raise e, w).

Definition lift {A} (r : result A) : IO A := fun w => (r, w).

Declare Scope io_scope.
Delimit Scope io_scope with io.
Notation "x <- m ;; k" := (bind m (fun x => k))
  (at level 61, m at next level, right associativity) : io_scope.
Notation "m ;;; k" := (bind m (fun _ => k))
  (at level 61, right associativity) : io_scope.

(** [print(line)]. *)
Definition print (line : string) : IO unit :=
  fun w => (Ok tt, mkWorld (stdout w ++ [line])%list (stderr w)).

(** [print(line, file=sys.stderr)]. *)
Definition print_err (line : string) : IO unit :=
  fun w => (Ok tt, mkWorld (stdout w) (stderr w ++ [line])%list).

(** A list comprehension [[f(x) for x in l]] whose body has effects: the
    elements are evaluated from left to right, the first exception ends it. *)
Fixpoint for_each {A B} (f : A -> IO B) (l : list A) : IO (list B) :=
  match l with
  | [] => ret []
  | x :: l' =>
      (y <- f x ;; ys <- for_each f l' ;; ret (y :: ys))%io
  end.

(** The same for a body that only raises or returns. *)
Definition map_result {A B} (f : A -> result B) : list A -> result (list B) :=
  fix go (l : list A) : result (list B) :=
    match l with
    | [] => Ok []
    | x :: l' =>
        match f x with
        | Raise e => Raise e
        | Ok y =>
            match go l' with
            | Raise e => Raise e
            | Ok ys => Ok (y :: ys)
            end
        end
    end.

(** [max(l)] of a list of lengths: [ValueError] on the empty list. *)
Definition py_max (l : list nat) : result nat :=
  match l with
  | [] => Raise ValueError
  | x :: l' => Ok (fold_left Nat.max l' x)
  end.

(** [list.sort] with the order [lt] on the keys: a stable sort. *)
Section Sort.

Context {A : Type} (lt : A -> A -> bool).

Fixpoint insert_sorted (x : A) (l : list A) : list A :=
  match l with
  | [] => [x]
  | y :: l' => if lt x y then x :: y :: l' else y :: insert_sorted x l'
  end.

Definition py_sort (l : list A) : list A :=
  fold_left (fun acc x => insert_sorted x acc) l [].

End Sort.

(** ** Paths ([pathlib.Path], absolute, POSIX)

    A path is the list of its components below the root [/]. *)

Definition Path : Type := list string.

(** [str(p)]. *)
Definition str_Path (p : Path) : string := "/" ++ PyStr.join "/" p.

(** [p / name], for the name of a directory entry. *)
Definition joinpath (p : Path) (entry : string) : Path := (p ++ [entry])%list.

(** [p.parent]. *)
Definition parent (p : Path) : Path := removelast p.

(** [p.match(".git")]: the pattern has no wildcard, it is compared with the
    last component. *)
Definition match_dot_git (p : Path) : bool :=
  match rev p with
  | [] => false
  | last :: _ => String.eqb last ".git"
  end.

(** [p.relative_to(other)]: the components of [p] below [other]. *)
Fixpoint relative_to (p other : Path) : result (list string) :=
  match other, p with
  | [], _ => Ok p
  | o :: other', c :: p' =>
      if String.eqb o c then relative_to p' other' else Raise ValueError
  | _ :: _, [] => Raise ValueError
  end.

(** [as_posix()] of a relative path. *)
Definition as_posix (rel : list string) : string :=
  match rel with
  | [] => "."
  | _ => PyStr.join "/" rel
  end.

(** [p < q]: paths compare as the lists of their components. *)
Fixpoint path_lt (p q : Path) : bool :=
  match p, q with
  | [], [] => false
  | [], _ :: _ => true
  | _ :: _, [] => false
  | a :: p', b :: q' =>
      String.ltb a b || (String.eqb a b && path_lt p' q')
  end.

(** Splitting a string at [/]. *)
Fixpoint split_slash (cur : string) (s : string) : list string :=
  match s with
  | EmptyString => [cur]
  | String c s' =>
      if Ascii.eqb c "/" then cur :: split_slash "" s'
      else split_slash (cur ++ String c "") s'
  end.

(** [Path(s)] for an absolute [s]: empty components and [.] are dropped. *)
Definition Path_of_str (s : string) : Path :=
  filter (fun c => negb (String.eqb c "" || String.eqb c "."))
         (split_slash "" s).

(** [os.path.join(a, b)] (posixpath). *)
Definition os_path_join (a b : string) : string :=
  if PyStr.startswith "/" b then b
  else if String.eqb a "" || PyStr.endswith_slash a then a ++ b
  else a ++ "/" ++ b.

(** ** The file system

    What the file system holds at a path: something that is not a directory,
    a directory with its entries in the order the system lists them, or a
    directory that cannot be listed (listing it raises [PermissionError]).
    The tree is finite: no link leads back into it. *)

Unset Elimination Schemes.
Inductive Entry : Type :=
| File
| Dir (entries : list (string * Entry))
| Unreadable.
Set Elimination Schemes.

(** Induction on a tree, with the hypothesis for every entry of a
    directory. *)
Fixpoint Entry_tree_ind (P : Entry -> Prop)
    (HFile : P File)
    (HDir : forall entries,
        Forall (fun ne => P (snd ne)) entries -> P (Dir entries))
    (HUnreadable : P Unreadable)
    (e : Entry) {struct e} : P e :=
  match e with
  | File => HFile
  | Unreadable => HUnreadable
  | Dir entries =>
      HDir entries
        ((fix all (l : list (string * Entry))
            : Forall (fun ne => P (snd ne)) l :=
            match l with
            | [] => Forall_nil _
            | ne :: l' =>
                Forall_cons ne
                  (Entry_tree_ind P HFile HDir HUnreadable (snd ne))
                  (all l')
            end) entries)
  end.

(** The entry, if any, at the relative path [rel] below [e]. *)
Fixpoint fs_find (e : Entry) (rel : list string) : option Entry :=
  match rel with
  | [] => Some e
  | c :: rel' =>
      match e with
      | File => None
      | Unreadable => None
      | Dir entries =>
          (fix look (l : list (string * Entry)) : option Entry :=
             match l with
             | [] => None
             | (n, child) :: l' =>
                 if String.eqb n c then fs_find child rel' else look l'
             end) entries
      end
  end.

(** [os.path.isdir] of what the file system holds. *)
Definition is_directory (e : Entry) : bool :=
  match e with
  | File => false
  | Dir _ => true
  | Unreadable => true
  end.

(** ** The version-control library's objects *)

(** An object id: 160 bits. *)
Definition Oid : Type := N.

Definition hex_char (d : N) : ascii :=
  match d with
  | 0%N => "0" | 1%N => "1" | 2%N => "2" | 3%N => "3"
  | 4%N => "4" | 5%N => "5" | 6%N => "6" | 7%N => "7"
  | 8%N => "8" | 9%N => "9" | 10%N => "a" | 11%N => "b"
  | 12%N => "c" | 13%N => "d" | 14%N => "e" | _ => "f"
  end%char.

Fixpoint hex_digits (n : nat) (v : N) (acc : string) : string :=
  match n with
  | O => acc
  | S n' => hex_digits n' (v / 16)%N (String (hex_char (v mod 16)%N) acc)
  end.

(** [oid.hex]: forty hexadecimal digits. *)
Definition hex (o : Oid) : string := hex_digits 40 o "".

(** The upstream of a branch, itself a branch: [remote_name] and [target].
    Reading [remote_name] gives the name of the remote that the upstream
    belongs to, or raises [ValueError] when the upstream is a local
    branch. *)
Record Upstream : Type := mkUpstream {
  remote_name : result string;
  upstream_target : Oid
}.

(** A local branch: [target] and [upstream] ([None] when none is set). *)
Record Branch : Type := mkBranch {
  target : Oid;
  upstream : option Upstream
}.

(** A remote: what [remote.fetch()] does when called. *)
Record Remote : Type := mkRemote {
  fetch_outcome : result unit
}.

(** A repository, by what the program reads from it.  [head_target] and
    [head_shorthand] are [repo.head.target] and [repo.head.shorthand], read
    only when the head is not unborn; [ahead_behind] returns unsigned
    counts. *)
Record Repository : Type := mkRepository {
  path : string;
  head_is_unborn : bool;
  head_is_detached : bool;
  head_target : Oid;
  head_shorthand : string;
  lookup_branch : string -> option Branch;
  remotes : list (string * Remote);
  status : list (string * N);
  ahead_behind : Oid -> Oid -> N * N
}.

(** The remote of the name [n] among the remotes. *)
Fixpoint remotes_find (l : list (string * Remote)) (n : string)
  : result Remote :=
  match l with
  | [] => Raise KeyError
  | (k, r) :: l' => if String.eqb k n then Ok r else remotes_find l' n
  end.

(** [repo.remotes[name]], where reading the expression [name] may raise. *)
Definition remotes_getitem (l : list (string * Remote)) (name : result string)
  : result Remote :=
  match name with
  | Raise x => Raise x
  | Ok n => remotes_find l n
  end.

(** ** The newer variant: [lib/gitsum.py] *)

Section Program.

(** [pygit2.discover_repository(path)]: the path of the repository found
    at or above [path], [None] when there is none. *)
Variable discover_repository : string -> option string.

(** [Repository(path)]: the constructor, which may reject its argument. *)
Variable Repository_new : string -> result Repository.

(** The truth value of what [discover_repository] returned. *)
Definition truthy (r : option string) : bool :=
  match r with
  | None => false
  | Some s => negb (String.eqb s "")
  end.

Definition _warn (msg : string) : IO unit :=
  print_err ("WARN: " ++ msg).

Definition _flatten {T : Type} (l : list (list T)) : list T :=
  flat_map (fun sublist => sublist) l.

(** [_do_get_git_repos(dir)], where [e] is what the file system holds at
    [dir].  [os.path.isdir(dir)] is [e] being a directory, [dir.iterdir()]
    the paths of its entries, or [PermissionError] for a directory that
    cannot be listed. *)
Fixpoint _do_get_git_repos (dir : Path) (e : Entry) {struct e}
  : result (list Repository * list Path) :=
  if PyStr.contains "Special Characters" (str_Path dir) then Ok ([], [])
  else
    match e with
    | File => Ok ([], [dir])
    | Dir entries =>
        let repo_path := discover_repository (str_Path dir) in
        if truthy repo_path then
          match Repository_new (match repo_path with
                                | Some s => s
                                | None => ""
                                end) with
          | Raise x => Raise x
          | Ok repo => Ok ([repo], [])
          end
        else
          match map_result
                  (fun ne : string * Entry =>
                     _do_get_git_repos (joinpath dir (fst ne)) (snd ne))
                  entries with
          | Raise x => Raise x
          | Ok results =>
              let repos := _flatten (map fst results) in
              let outside_files := _flatten (map snd results) in
              if negb (List.length repos =? 0)%nat
              then Ok (repos, outside_files)
              else Ok (repos, [dir])
          end
    | Unreadable =>
        let repo_path := discover_repository (str_Path dir) in
        if truthy repo_path then
          match Repository_new (match repo_path with
                                | Some s => s
                                | None => ""
                                end) with
          | Raise x => Raise x
          | Ok repo => Ok ([repo], [])
          end
        else Raise PermissionError
    end.

(** [_get_git_repos(dir, list_outside_files)]; [f.is_dir()] looks [f] up
    in the tree below [dir]. *)
Definition _get_git_repos (dir : Path) (e : Entry) (list_outside_files : bool)
  : IO (list Repository) :=
  (res <- lift (_do_get_git_repos dir e) ;;
   let '(repos, outside_files) := res in
   (if list_outside_files then
      let outside_files := py_sort path_lt outside_files in
      for_each
        (fun f =>
           rel <- lift (relative_to f dir) ;;
           let relative_path := as_posix rel in
           let f_is_dir :=
             match fs_find e rel with
             | Some found => is_directory found
             | None => false
             end in
           let path_str :=
             if f_is_dir then relative_path ++ "/" else relative_path in
           print ("OUTSIDE: " ++ path_str))
        outside_files ;;; ret tt
    else ret tt) ;;;
   ret repos)%io.

Definition _get_repo_name (repo : Repository) (working_dir : Path)
  : result string :=
  let path0 := Path_of_str (path repo) in
  let path1 := if match_dot_git path0 then parent path0 else path0 in
  match relative_to path1 working_dir with
  | Raise x => Raise x
  | Ok rel => Ok (as_posix rel)
  end.

(** [_try_fetch]: only [GitError] is caught. *)
Definition _try_fetch (remote : Remote) (repo_name : string) : IO unit :=
  match fetch_outcome remote with
  | Ok _ => ret tt
  | Raise GitError => _warn ("Failed to fetch repo '" ++ repo_name ++ "'")
  | Raise x => raise x
  end.

Definition _get_status (repo : Repository) (name : string) (fetch : bool)
  : IO RepoStatus :=
  (st <-
     (if head_is_unborn repo then
        ret ("(no commits)", false, (0, 0)%Z)
      else if head_is_detached repo then
        ret ("(" ++ PyStr.take 6 (hex (head_target repo)) ++ ")",
             false, (0, 0)%Z)
      else
        let branch_name := head_shorthand repo in
        match lookup_branch repo branch_name with
        | None => raise AttributeError
        | Some local_branch =>
            match upstream local_branch with
            | Some upstream_branch =>
                (if fetch then
                   remote <- lift (remotes_getitem (remotes repo)
                                     (remote_name upstream_branch)) ;;
                   _try_fetch remote name
                 else ret tt) ;;;
                let '(a, b) :=
                  ahead_behind repo (target local_branch)
                    (upstream_target upstream_branch) in
                ret (branch_name, true, (Z.of_N a, Z.of_N b))
            | None => ret (branch_name, false, (0, 0)%Z)
            end
        end) ;;
   let '(branch_name, branch_has_upstream, (local_ahead, local_behind)) := st in
   let is_local := negb (0 <? List.length (remotes repo))%nat in
   let has_changes := (0 <? List.length (status repo))%nat in
   ret (mkRepoStatus name branch_name is_local has_changes
          branch_has_upstream local_ahead local_behind))%io.

(** [[_get_status(r, _get_repo_name(r, cwd), fetch) for r in repos]]. *)
Definition statuses_of (cwd : Path) (fetch : bool) (repos : list Repository)
  : IO (list RepoStatus) :=
  for_each (fun r =>
              (n <- lift (_get_repo_name r cwd) ;;
               _get_status r n fetch)%io) repos.

(** [_get_git_summary], run in the directory [cwd] whose tree is [fs]. *)
Definition _get_git_summary (cwd : Path) (fs : Entry)
    (fetch list_outside_files only_outside_files : bool) : IO unit :=
  (repos <- _get_git_repos cwd fs (list_outside_files || only_outside_files) ;;
   if negb only_outside_files then
     print ("Found " ++ PyStr.str_of_int (Z.of_nat (List.length repos))
            ++ " Git repositories.") ;;;
     statuses <- statuses_of cwd fetch repos ;;
     name_width <- lift (py_max (map (fun s => PyStr.len (name s)) statuses)) ;;
     head_width <- lift (py_max (map (fun s => PyStr.len (head s)) statuses)) ;;
     let statuses := py_sort (fun a b => String.ltb (name a) (name b)) statuses in
     for_each (fun s => print (to_string s name_width head_width)) statuses ;;;
     ret tt
   else ret tt)%io.

End Program.

(** ** Slices of strings *)

(** [s[n:]]. *)
Fixpoint str_drop (n : nat) (s : string) : string :=
  match n, s with
  | S n', String _ s' => str_drop n' s'
  | _, _ => s
  end.

(** [s[start:-back]] for [back > 0]: from [start] up to [back] characters
    before the end, empty when the two cross. *)
Definition str_slice (s : string) (start back : nat) : string :=
  PyStr.take (PyStr.len s - back - start) (str_drop start s).

(** ** The older variant: [gitsum.py] *)

Module Old.

Section Program.

(** [pygit2.discover_repository(path)]: the path of the repository found
    at or above [path], [None] when there is none. *)
Variable discover_repository : string -> option string.

(** [Repository(path)]: the constructor, which may reject its argument. *)
Variable Repository_new : string -> result Repository.

Definition _flatten {T : Type} (l : list (list T)) : list T :=
  flat_map (fun sublist => sublist) l.

Fixpoint _get_git_repos (dir : string) (e : Entry) {struct e}
  : result (list Repository) :=
  if PyStr.contains "Special Characters" dir then Ok []
  else
    match e with
    | File => Ok []
    | Dir entries =>
        let repo_path := discover_repository dir in
        if truthy repo_path then
          match Repository_new (match repo_path with
                                | Some s => s
                                | None => ""
                                end) with
          | Raise x => Raise x
          | Ok repo => Ok [repo]
          end
        else
          match map_result
                  (fun ne : string * Entry =>
                     _get_git_repos (os_path_join dir (fst ne)) (snd ne))
                  entries with
          | Raise x => Raise x
          | Ok results => Ok (_flatten results)
          end
    | Unreadable =>
        let repo_path := discover_repository dir in
        if truthy repo_path then
          match Repository_new (match repo_path with
                                | Some s => s
                                | None => ""
                                end) with
          | Raise x => Raise x
          | Ok repo => Ok [repo]
          end
        else Raise PermissionError
    end.

Definition get_status (repo : Repository) (name : string)
  : result RepoStatus :=
  let st :=
    if head_is_unborn repo then
      Ok ("(no commits)", false, (0, 0)%Z)
    else if head_is_detached repo then
      Ok ("(" ++ PyStr.take 6 (hex (head_target repo)) ++ ")",
          false, (0, 0)%Z)
    else
      let branch_name := head_shorthand repo in
      match lookup_branch repo branch_name with
      | None => Raise AttributeError
      | Some local_branch =>
          match upstream local_branch with
          | Some upstream_branch =>
              let '(a, b) :=
                ahead_behind repo (target local_branch)
                  (upstream_target upstream_branch) in
              Ok (branch_name, true, (Z.of_N a, Z.of_N b))
          | None => Ok (branch_name, false, (0, 0)%Z)
          end
      end in
  match st with
  | Raise x => Raise x
  | Ok (branch_name, branch_has_upstream, (local_ahead, local_behind)) =>
      let is_local := negb (0 <? List.length (remotes repo))%nat in
      let has_changes := (0 <? List.length (status repo))%nat in
      Ok (mkRepoStatus name branch_name is_local has_changes
            branch_has_upstream local_ahead local_behind)
  end.

(** [_truncate_path(path)], where [cwd] is what [os.getcwd()] returns. *)
Definition _truncate_path (cwd : string) (path : string) : string :=
  let name := str_slice path (PyStr.len cwd + 1) 6 in
  if String.eqb name "" then "." else name.

(** [main], run in the directory [cwd] whose tree is [fs]. *)
Definition main (cwd : string) (fs : Entry) : IO unit :=
  (repos <- lift (_get_git_repos cwd fs) ;;
   print ("Found " ++ PyStr.str_of_int (Z.of_nat (List.length repos))
          ++ " Git repositories.") ;;;
   statuses <-
     for_each (fun r => lift (get_status r (_truncate_path cwd (path r))))
       repos ;;
   name_width <- lift (py_max (map (fun s => PyStr.len (name s)) statuses)) ;;
   head_width <- lift (py_max (map (fun s => PyStr.len (head s)) statuses)) ;;
   for_each (fun s => print (to_string s name_width head_width)) statuses ;;;
   ret tt)%io.

End Program.

End Old.

(** * Notions of the specification *)

(** The alignment of the lines of a table, as the specification states it. *)
Definition lines_aligned (l : list RepoStatus) : Prop :=
  forall name_width head_width,
    py_max (map (fun s => PyStr.len (name s)) l) = Ok name_width ->
    py_max (map (fun s => PyStr.len (head s)) l) = Ok head_width ->
    forall s1 s2, In s1 l -> In s2 l ->
      PyStr.len (to_string s1 name_width head_width)
      = PyStr.len (to_string s2 name_width head_width).

(** A character of [0123456789abcdef]. *)
Definition is_hex_digit (c : ascii) : bool :=
  existsb (Ascii.eqb c) (list_ascii_of_string "0123456789abcdef").

(** [all(p(c) for c in s)]. *)
Fixpoint all_chars (p : ascii -> bool) (s : string) : bool :=
  match s with
  | EmptyString => true
  | String c s' => p c && all_chars p s'
  end.

(** The line [_warn] writes for a failed fetch. *)
Definition fetch_warning (name : string) : string :=
  "WARN: Failed to fetch repo '" ++ name ++ "'".

(** The guard of both discovery functions. *)
Definition unprocessable (dir : Path) : bool :=
  PyStr.contains "Special Characters" (str_Path dir).

(** The directories of the tree that [e] is at [dir], [dir] included. *)
Fixpoint directories (dir : Path) (e : Entry) {struct e} : list Path :=
  match e with
  | File => []
  | Dir entries =>
      dir :: flat_map (fun ne : string * Entry =>
                         directories (joinpath dir (fst ne)) (snd ne)) entries
  | Unreadable => [dir]
  end.

(** The leaves of the tree (files, empty directories and directories that
    cannot be listed), each with the directories of the tree on the way from
    [dir] to it. *)
Fixpoint leaves (dir : Path) (e : Entry) {struct e}
  : list (Path * list Path) :=
  match e with
  | File => [(dir, [])]
  | Dir entries =>
      map (fun leaf : Path * list Path => (fst leaf, dir :: snd leaf))
          match entries with
          | [] => [(dir, [])]
          | _ => flat_map (fun ne : string * Entry =>
                             leaves (joinpath dir (fst ne)) (snd ne)) entries
          end
  | Unreadable => [(dir, [dir])]
  end.

(** [fmap] on results. *)
Definition result_map {A B} (f : A -> B) (r : result A) : result B :=
  match r with
  | Ok a => Ok (f a)
  | Raise x => Raise x
  end.

(** A name of a directory entry: not empty, without [/]. *)
Definition valid_name (n : string) : bool :=
  negb (String.eqb n "") && negb (PyStr.contains "/" n).

Definition valid_path (p : Path) : bool := forallb valid_name p.

Fixpoint valid_tree (e : Entry) : bool :=
  match e with
  | File => true
  | Dir entries =>
      forallb (fun ne : string * Entry =>
                 valid_name (fst ne) && valid_tree (snd ne)) entries
  | Unreadable => true
  end.

(** Every directory of the tree can be listed. *)
Fixpoint readable (e : Entry) : bool :=
  match e with
  | File => true
  | Dir entries =>
      forallb (fun ne : string * Entry => readable (snd ne)) entries
  | Unreadable => false
  end.


(** A component of a path as [pathlib] keeps it: a valid name other than
    [.]. *)
Definition proper_name (n : string) : bool :=
  valid_name n && negb (String.eqb n ".").

Definition proper_path (p : Path) : bool := forallb proper_name p.

(** The line printed for the outside entry at [rel] below the scanned
    directory, whose tree is [e]. *)
Definition outside_line (e : Entry) (rel : list string) : string :=
  "OUTSIDE: " ++
  (if match fs_find e rel with
      | Some found => is_directory found
      | None => false
      end
   then as_posix rel ++ "/" else as_posix rel).

(** The order in which [list.sort] leaves two neighbours. *)
Definition in_order {A : Type} (lt : A -> A -> bool) (a b : A) : Prop :=
  lt b a = false.

(** What [_get_status] may write: nothing, or the warning of a failed
    fetch on standard error. *)
Definition wrote_at_most_warning (name : string) (w w' : World) : Prop :=
  stdout w' = stdout w /\
  (stderr w' = stderr w \/
   stderr w' = (stderr w ++ [fetch_warning name])%list).

(** The names of the entries of every directory of the tree differ. *)
Fixpoint names_differ (l : list string) : bool :=
  match l with
  | [] => true
  | n :: l' => negb (existsb (String.eqb n) l') && names_differ l'
  end.

Fixpoint distinct_names (e : Entry) : bool :=
  match e with
  | File => true
  | Dir entries =>
      names_differ (map fst entries) &&
      forallb (fun ne : string * Entry => distinct_names (snd ne)) entries
  | Unreadable => true
  end.

Section Notions.

Variable discover_repository : string -> option string.

(** The library finds a repository at or above [dir]. *)
Definition in_repository (dir : Path) : bool :=
  truthy (discover_repository (str_Path dir)).

(** The library finds no repository at or above any directory of the tree:
    the tree contains no repository and does not lie inside one. *)
Definition no_repositories (dir : Path) (e : Entry) : bool :=
  forallb (fun d => negb (in_repository d)) (directories dir e).

(** Every leaf lies inside a repository that discovery returns: on its
    way there is a directory where the library finds a repository and
    which discovery does not skip. *)
Definition every_leaf_in_repository (dir : Path) (e : Entry) : bool :=
  forallb (fun leaf : Path * list Path =>
             existsb (fun d => in_repository d && negb (unprocessable d))
                     (snd leaf))
          (leaves dir e).

End Notions.

(** * Sample inputs *)

(** Sample repositories. *)
Definition empty_world : World := mkWorld [] [].

Definition sample_oid : Oid := (10597059 * 16 ^ 34)%N.

Definition repo_detached : Repository :=
  mkRepository "/work/tool/.git/" false true sample_oid "HEAD"
    (fun _ => None) [] [] (fun _ _ => (0, 0)%N).

Definition repo_unborn : Repository :=
  mkRepository "/work/new/.git/" true false 0%N ""
    (fun _ => None) [] [] (fun _ _ => (0, 0)%N).

(** A repository on [main], tracking [origin/main], two commits ahead and
    one behind, whose remote cannot be reached. *)
Definition repo_offline : Repository :=
  mkRepository "/work/app/.git/" false false 7%N "main"
    (fun b => if String.eqb b "main"
              then Some (mkBranch 7%N (Some (mkUpstream (Ok "origin") 5%N)))
              else None)
    [("origin", mkRemote (Raise GitError))] []
    (fun a b => if (N.eqb a 7 && N.eqb b 5)%bool then (2, 1)%N else (0, 0)%N).

(** [repo_offline] with a fetch that raises [KeyError]; a repository whose
    branch tracks a local branch; one with a head that names no branch. *)
Definition repo_bad_fetch : Repository :=
  mkRepository "/work/app/.git/" false false 7%N "main"
    (lookup_branch repo_offline)
    [("origin", mkRemote (Raise KeyError))] []
    (ahead_behind repo_offline).

Definition repo_local_upstream : Repository :=
  mkRepository "/work/app/.git/" false false 7%N "topic"
    (fun b => if String.eqb b "topic"
              then Some (mkBranch 7%N
                           (Some (mkUpstream (Raise ValueError) 5%N)))
              else None)
    [] [] (ahead_behind repo_offline).

Definition repo_no_branch : Repository :=
  mkRepository "/work/app/.git/" false false 7%N "main"
    (fun _ => None) [] [] (fun _ _ => (0, 0)%N).

(** A file system without repositories, and a constructor that accepts
    nothing. *)
Definition no_discovery : string -> option string := fun _ => None.
Definition no_constructor : string -> result Repository :=
  fun _ => Raise GitError.

(** A tree of two repositories. *)
Definition two_repos_tree : Entry :=
  Dir [("app", Dir [(".git", Dir []); ("main.py", File)]);
       ("lib", Dir [(".git", Dir []); ("src", Dir [("x.py", File)])])].

Definition two_repos_discovery (s : string) : option string :=
  if PyStr.startswith "/work/app" s then Some "/work/app/.git/"
  else if PyStr.startswith "/work/lib" s then Some "/work/lib/.git/"
  else None.

Definition sample_constructor (s : string) : result Repository :=
  Ok (mkRepository s false false 7%N "main" (fun _ => None) [] []
        (fun _ _ => (0, 0)%N)).

(** A directory with two repositories, a directory and a file outside. *)
Definition mixed_tree : Entry :=
  Dir [("app", Dir [(".git", Dir []); ("main.py", File)]);
       ("notes", Dir [("a.txt", File)]);
       ("zz.txt", File);
       ("lib", Dir [(".git", Dir []); ("src", Dir [("x.py", File)])])].

Definition mixed_constructor (s : string) : result Repository :=
  if String.eqb s "/work/app/.git/"
  then Ok (mkRepository s false false 7%N "main"
             (lookup_branch repo_offline) (remotes repo_offline)
             [("main.py", 256%N)]
             (fun _ _ => (12, 1)%N))
  else Ok (mkRepository s false true sample_oid "HEAD"
             (fun _ => None) [] [] (fun _ _ => (0, 0)%N)).

(** The two repositories that [mixed_constructor] makes. *)
Definition app_repo : Repository :=
  mkRepository "/work/app/.git/" false false 7%N "main"
    (lookup_branch repo_offline) (remotes repo_offline)
    [("main.py", 256%N)]
    (fun _ _ => (12, 1)%N).

Definition lib_repo : Repository :=
  mkRepository "/work/lib/.git/" false true sample_oid "HEAD"
    (fun _ => None) [] [] (fun _ _ => (0, 0)%N).

(** * Properties *)

(** ** Strings *)

Lemma len_app (a b : string) :
  PyStr.len (a ++ b) = PyStr.len a + PyStr.len b.
Proof.
  unfold PyStr.len. induction a as [|c a IH]; simpl; [reflexivity|].
  now rewrite IH.
Qed.

Lemma len_spaces (n : nat) : PyStr.len (PyStr.spaces n) = n.
Proof.
  unfold PyStr.len. induction n as [|n IH]; simpl; [reflexivity|].
  now rewrite IH.
Qed.

Lemma len_ljust (s : string) (w : nat) :
  PyStr.len (PyStr.ljust s w) = Nat.max (PyStr.len s) w.
Proof.
  unfold PyStr.ljust. rewrite len_app, len_spaces. lia.
Qed.

Lemma len_str_of_digit (z : Z) :
  (0 < z < 10)%Z -> PyStr.len (PyStr.str_of_int z) = 1.
Proof.
  intros Hz.
  assert (Hcases : z = 1%Z \/ z = 2%Z \/ z = 3%Z \/ z = 4%Z \/ z = 5%Z \/
                   z = 6%Z \/ z = 7%Z \/ z = 8%Z \/ z = 9%Z) by lia.
  repeat (destruct Hcases as [-> | Hcases]; [reflexivity|]).
  subst z. reflexivity.
Qed.

(** The length of a count field: three characters while the count has at
    most one digit. *)
Lemma len_count_field (mark : string) (z : Z) :
  PyStr.len mark = 2 -> (z < 10)%Z ->
  PyStr.len (if (z >? 0)%Z then mark ++ PyStr.str_of_int z else "   ") = 3.
Proof.
  intros Hmark Hz. destruct (z >? 0)%Z eqn:Hpos.
  - rewrite len_app, Hmark, len_str_of_digit; [reflexivity|]. lia.
  - reflexivity.
Qed.

Lemma fold_max_upper (l : list nat) :
  forall a, a <= fold_left Nat.max l a /\
            forall x, In x l -> x <= fold_left Nat.max l a.
Proof.
  induction l as [|b l IH]; simpl; intros a.
  - split; [lia | contradiction].
  - destruct (IH (Nat.max a b)) as [Hacc Hin]. split; [lia|].
    intros x [<- | Hx]; [lia | now apply Hin].
Qed.

Lemma py_max_upper (l : list nat) (m : nat) :
  py_max l = Ok m -> forall x, In x l -> x <= m.
Proof.
  destruct l as [|a l]; simpl; [discriminate|].
  intros Hm x Hx. injection Hm as <-.
  destruct (fold_max_upper l a) as [Ha Hl].
  destruct Hx as [<- | Hx]; [exact Ha | now apply Hl].
Qed.

(** ** The status record *)

Example to_string_ex :
  to_string (mkRepoStatus "a/b" "main" false true true 10 3) 5 6
  = "!  a/b          main    * >10 <3".
Proof. reflexivity. Qed.

(** C5: [is_up_to_date] holds exactly when there are no changes and the
    branch has no upstream or is neither ahead nor behind. *)
Theorem is_up_to_date_iff (s : RepoStatus) :
  is_up_to_date s = true <->
  has_changes s = false /\
  (branch_has_upstream s = false \/
   (local_ahead s = 0%Z /\ local_behind s = 0%Z)).
Proof.
  unfold is_up_to_date.
  rewrite andb_true_iff, orb_true_iff, andb_true_iff, !negb_true_iff,
    !Z.eqb_eq.
  reflexivity.
Qed.

(** The length of a rendered line whose counts have at most one digit. *)
Lemma len_to_string (s : RepoStatus) (name_width head_width : nat) :
  PyStr.len (name s) <= name_width ->
  PyStr.len (head s) <= head_width ->
  (local_ahead s < 10)%Z -> (local_behind s < 10)%Z ->
  PyStr.len (to_string s name_width head_width)
  = name_width + head_width + 20.
Proof.
  intros Hn Hh Ha Hb. unfold to_string.
  rewrite !len_app, !len_ljust.
  rewrite (len_count_field " >" _ eq_refl Ha).
  rewrite (len_count_field " <" _ eq_refl Hb).
  destruct (negb (is_up_to_date s)), (is_local s),
    (negb (branch_has_upstream s)), (has_changes s);
    cbn [PyStr.len String.length]; lia.
Qed.

(** C2, as stated, fails: a count of two digits makes its line longer. *)
Lemma lines_aligned_counterexample :
  ~ (forall l : list RepoStatus, l <> [] -> lines_aligned l).
Proof.
  intros H.
  pose (s1 := mkRepoStatus "a" "main" false false true 10 0).
  pose (s2 := mkRepoStatus "b" "main" false false true 0 0).
  assert (Hne : [s1; s2] <> []) by discriminate.
  specialize (H [s1; s2] Hne 1 4 eq_refl eq_refl s1 s2
                (or_introl eq_refl) (or_intror (or_introl eq_refl))).
  vm_compute in H. discriminate H.
Qed.

(** C2, amended: when every count of the list is below ten, the lines
    rendered with the maximal widths all have the same length. *)
Theorem lines_aligned_small_counts (l : list RepoStatus) :
  l <> [] ->
  (forall s, In s l -> (local_ahead s < 10)%Z /\ (local_behind s < 10)%Z) ->
  lines_aligned l.
Proof.
  intros _ Hsmall name_width head_width Hnw Hhw s1 s2 H1 H2.
  assert (Hlen : forall s, In s l ->
            PyStr.len (to_string s name_width head_width)
            = name_width + head_width + 20).
  { intros s Hs. destruct (Hsmall s Hs) as [Ha Hb].
    apply len_to_string; [| |exact Ha|exact Hb].
    - apply (py_max_upper _ _ Hnw).
      apply (in_map (fun s => PyStr.len (name s))). exact Hs.
    - apply (py_max_upper _ _ Hhw).
      apply (in_map (fun s => PyStr.len (head s))). exact Hs. }
  rewrite (Hlen s1 H1), (Hlen s2 H2). reflexivity.
Qed.

Lemma lines_aligned_small_counts_witness :
  lines_aligned
    [mkRepoStatus "tools/gitsum" "main" false true true 3 0;
     mkRepoStatus "notes" "(no commits)" true false false 0 0].
Proof.
  apply lines_aligned_small_counts.
  - discriminate.
  - intros s [<- | [<- | []]]; simpl; lia.
Defined.

(** ** Status derivation *)

Ltac run_io :=
  cbv beta iota delta
    [bind ret lift raise _try_fetch _warn print_err print].

(** What [_get_status] returns when the fetch is not requested is what the
    older [Old.get_status] returns; nothing is written. *)
Lemma _get_status_no_fetch (repo : Repository) (name : string) (w : World) :
  _get_status repo name false w = (Old.get_status repo name, w).
Proof.
  unfold _get_status, Old.get_status. run_io.
  destruct (head_is_unborn repo); [reflexivity|].
  destruct (head_is_detached repo); [reflexivity|].
  destruct (lookup_branch repo (head_shorthand repo)) as [lb|]; [|reflexivity].
  destruct (upstream lb) as [ub|]; [|reflexivity].
  destruct (ahead_behind repo (target lb) (upstream_target ub)); reflexivity.
Qed.

Ltac record_known H :=
  injection H as <- _; cbn [local_ahead local_behind branch_has_upstream];
  repeat split; try lia; try discriminate.

(** C6: the counts of a derived record are not negative, and both are zero
    when the branch has no upstream. *)
Theorem _get_status_counts
    (repo : Repository) (name : string) (fetch : bool) (w w' : World)
    (s : RepoStatus) :
  _get_status repo name fetch w = (Ok s, w') ->
  (0 <= local_ahead s)%Z /\ (0 <= local_behind s)%Z /\
  (branch_has_upstream s = false ->
   local_ahead s = 0%Z /\ local_behind s = 0%Z).
Proof.
  unfold _get_status. run_io.
  generalize (hex (head_target repo)); intros hx.
  destruct (head_is_unborn repo); [intros H; record_known H|].
  destruct (head_is_detached repo); [intros H; record_known H|].
  destruct (lookup_branch repo (head_shorthand repo)) as [lb|];
    [|discriminate].
  destruct (upstream lb) as [ub|]; [|intros H; record_known H].
  destruct (ahead_behind repo (target lb) (upstream_target ub)) as [a b].
  destruct fetch; [|intros H; record_known H].
  destruct (remotes_getitem (remotes repo) (remote_name ub)) as [rm|];
    [|discriminate].
  destruct (fetch_outcome rm) as [u|[]]; try discriminate;
    intros H; record_known H.
Qed.

Lemma _get_status_counts_witness :
  (0 <= local_ahead (mkRepoStatus "app" "main" false false true 2 1))%Z /\
  (0 <= local_behind (mkRepoStatus "app" "main" false false true 2 1))%Z /\
  (branch_has_upstream (mkRepoStatus "app" "main" false false true 2 1)
   = false ->
   local_ahead (mkRepoStatus "app" "main" false false true 2 1) = 0%Z /\
   local_behind (mkRepoStatus "app" "main" false false true 2 1) = 0%Z).
Proof.
  apply (_get_status_counts repo_offline "app" true empty_world
           (mkWorld [] ["WARN: Failed to fetch repo 'app'"])).
  reflexivity.
Defined.

Lemma hex_char_is_hex (d : N) : is_hex_digit (hex_char d) = true.
Proof.
  destruct d as [|p]; [reflexivity|].
  do 4 (destruct p as [p|p|]; try reflexivity).
Qed.

Lemma hex_digits_len (n : nat) :
  forall v acc, PyStr.len (hex_digits n v acc) = n + PyStr.len acc.
Proof.
  induction n as [|n IH]; intros v acc; cbn [hex_digits]; [reflexivity|].
  rewrite IH. unfold PyStr.len. cbn [String.length]. lia.
Qed.

Lemma hex_digits_all (n : nat) :
  forall v acc,
    all_chars is_hex_digit acc = true ->
    all_chars is_hex_digit (hex_digits n v acc) = true.
Proof.
  induction n as [|n IH]; intros v acc Hacc; cbn [hex_digits]; [exact Hacc|].
  apply IH. cbn [all_chars]. now rewrite hex_char_is_hex, Hacc.
Qed.

Lemma take_len (n : nat) :
  forall s, n <= PyStr.len s -> PyStr.len (PyStr.take n s) = n.
Proof.
  unfold PyStr.len.
  induction n as [|n IH]; intros [|c s] Hn; cbn in *; try lia.
  now rewrite IH by lia.
Qed.

Lemma take_all (p : ascii -> bool) (n : nat) :
  forall s, all_chars p s = true -> all_chars p (PyStr.take n s) = true.
Proof.
  induction n as [|n IH]; intros [|c s] Hs; cbn in *; try reflexivity.
  apply andb_true_iff in Hs as [Hc Hs]. now rewrite Hc, IH.
Qed.

(** The first six characters of an object id in hexadecimal. *)
Lemma short_hex_shape (o : Oid) :
  PyStr.len (PyStr.take 6 (hex o)) = 6 /\
  all_chars is_hex_digit (PyStr.take 6 (hex o)) = true.
Proof.
  unfold hex. split.
  - apply take_len. rewrite hex_digits_len. cbn. lia.
  - apply take_all, hex_digits_all. reflexivity.
Qed.

(** C7: with a detached head the [head] field is an opening parenthesis, the
    first six hexadecimal digits of the commit id and a closing parenthesis,
    eight characters in all; with an unborn head it is [(no commits)]. *)
Theorem _get_status_head
    (repo : Repository) (name : string) (fetch : bool) (w : World) :
  (head_is_unborn repo = false -> head_is_detached repo = true ->
   exists s digits,
     _get_status repo name fetch w = (Ok s, w) /\
     head s = "(" ++ digits ++ ")" /\
     digits = PyStr.take 6 (hex (head_target repo)) /\
     PyStr.len digits = 6 /\
     all_chars is_hex_digit digits = true /\
     PyStr.len (head s) = 8) /\
  (head_is_unborn repo = true ->
   exists s,
     _get_status repo name fetch w = (Ok s, w) /\
     head s = "(no commits)").
Proof.
  split.
  - intros Hunborn Hdetached.
    destruct (short_hex_shape (head_target repo)) as [Hlen Hhex].
    eexists. exists (PyStr.take 6 (hex (head_target repo))).
    split; [|split; [|split; [reflexivity|split; [exact Hlen|split; [exact Hhex|]]]]].
    + unfold _get_status. run_io. rewrite Hunborn, Hdetached. reflexivity.
    + reflexivity.
    + cbn [head]. rewrite !len_app, Hlen. reflexivity.
  - intros Hunborn. eexists. split.
    + unfold _get_status. run_io. rewrite Hunborn. reflexivity.
    + reflexivity.
Qed.

Lemma _get_status_head_witness :
  (exists s digits,
     _get_status repo_detached "tool" true empty_world = (Ok s, empty_world) /\
     head s = "(" ++ digits ++ ")" /\
     digits = PyStr.take 6 (hex (head_target repo_detached)) /\
     PyStr.len digits = 6 /\
     all_chars is_hex_digit digits = true /\
     PyStr.len (head s) = 8) /\
  (exists s,
     _get_status repo_unborn "new" true empty_world = (Ok s, empty_world) /\
     head s = "(no commits)").
Proof.
  split.
  - apply (proj1 (_get_status_head repo_detached "tool" true empty_world));
      reflexivity.
  - apply (proj2 (_get_status_head repo_unborn "new" true empty_world));
      reflexivity.
Defined.

Example repo_detached_head :
  fst (_get_status repo_detached "tool" false empty_world)
  = Ok (mkRepoStatus "tool" "(a1b2c3)" true false false 0 0).
Proof. vm_compute. reflexivity. Qed.

(** C8: when the fetch of the upstream's remote fails with [GitError], the
    warning goes to standard error, the record is the one derived without
    fetching, with the counts of the branch targets read before the fetch,
    and the comprehension over the repositories goes on with the rest. *)
Theorem _get_status_fetch_failure
    (repo : Repository) (name : string) (w : World)
    (local_branch : Branch) (upstream_branch : Upstream) (remote : Remote) :
  head_is_unborn repo = false ->
  head_is_detached repo = false ->
  lookup_branch repo (head_shorthand repo) = Some local_branch ->
  upstream local_branch = Some upstream_branch ->
  remotes_getitem (remotes repo) (remote_name upstream_branch) = Ok remote ->
  fetch_outcome remote = Raise GitError ->
  let warned := mkWorld (stdout w) (stderr w ++ [fetch_warning name])%list in
  exists s,
    _get_status repo name true w = (Ok s, warned) /\
    Old.get_status repo name = Ok s /\
    branch_has_upstream s = true /\
    (local_ahead s, local_behind s)
    = (let '(a, b) := ahead_behind repo (target local_branch)
                        (upstream_target upstream_branch) in
       (Z.of_N a, Z.of_N b)) /\
    forall cwd rest,
      _get_repo_name repo cwd = Ok name ->
      statuses_of cwd true (repo :: rest) w
      = (ss <- statuses_of cwd true rest ;; ret (s :: ss))%io warned.
Proof.
  intros Hunborn Hdetached Hbranch Hupstream Hremote Hfetch warned.
  assert (Hrun : exists s,
             _get_status repo name true w = (Ok s, warned) /\
             Old.get_status repo name = Ok s /\
             branch_has_upstream s = true /\
             (local_ahead s, local_behind s)
             = (let '(a, b) := ahead_behind repo (target local_branch)
                                 (upstream_target upstream_branch) in
                (Z.of_N a, Z.of_N b))).
  { unfold _get_status, Old.get_status. run_io.
    rewrite Hunborn, Hdetached, Hbranch, Hupstream, Hremote, Hfetch.
    destruct (ahead_behind repo (target local_branch)
                (upstream_target upstream_branch)) as [a b].
    eexists. repeat split. }
  destruct Hrun as (s & Hs & Hold & Hup & Hcounts).
  exists s. repeat split; try assumption.
  intros cwd rest Hname.
  unfold statuses_of. cbn [for_each]. unfold bind at 1 2, lift at 1.
  rewrite Hname, Hs. reflexivity.
Qed.

Lemma _get_status_fetch_failure_witness :
  exists s,
    _get_status repo_offline "app" true empty_world
    = (Ok s, mkWorld [] ["WARN: Failed to fetch repo 'app'"]) /\
    Old.get_status repo_offline "app" = Ok s /\
    branch_has_upstream s = true /\
    (local_ahead s, local_behind s) = (2, 1)%Z /\
    forall cwd rest,
      _get_repo_name repo_offline cwd = Ok "app" ->
      statuses_of cwd true (repo_offline :: rest) empty_world
      = (ss <- statuses_of cwd true rest ;; ret (s :: ss))%io
          (mkWorld [] ["WARN: Failed to fetch repo 'app'"]).
Proof.
  apply (_get_status_fetch_failure repo_offline "app" empty_world
           (mkBranch 7%N (Some (mkUpstream (Ok "origin") 5%N)))
           (mkUpstream (Ok "origin") 5%N) (mkRemote (Raise GitError)));
    reflexivity.
Defined.

(** ** Discovery *)

Section Discovery.

Variable discover_repository : string -> option string.
Variable Repository_new : string -> result Repository.

Local Abbreviation walk :=
  (_do_get_git_repos discover_repository Repository_new).

Lemma _do_get_git_repos_eq (dir : Path) (e : Entry) :
  walk dir e =
  if unprocessable dir then Ok ([], [])
  else
    match e with
    | File => Ok ([], [dir])
    | Dir entries =>
        if in_repository discover_repository dir then
          match Repository_new
                  (match discover_repository (str_Path dir) with
                   | Some s => s
                   | None => ""
                   end) with
          | Raise x => Raise x
          | Ok repo => Ok ([repo], [])
          end
        else
          match map_result
                  (fun ne : string * Entry =>
                     walk (joinpath dir (fst ne)) (snd ne)) entries with
          | Raise x => Raise x
          | Ok results =>
              let repos := _flatten (map fst results) in
              let outside_files := _flatten (map snd results) in
              if negb (List.length repos =? 0)%nat
              then Ok (repos, outside_files)
              else Ok (repos, [dir])
          end
    | Unreadable =>
        if in_repository discover_repository dir then
          match Repository_new
                  (match discover_repository (str_Path dir) with
                   | Some s => s
                   | None => ""
                   end) with
          | Raise x => Raise x
          | Ok repo => Ok ([repo], [])
          end
        else Raise PermissionError
    end.
Proof. destruct e; reflexivity. Qed.

(** A comprehension whose every element returns no repository returns
    none. *)
Lemma map_result_no_repos (f : string * Entry -> result (list Repository * list Path))
    (entries : list (string * Entry)) :
  Forall (fun ne => exists out, f ne = Ok ([], out)) entries ->
  exists results,
    map_result f entries = Ok results /\
    _flatten (map fst results) = [].
Proof.
  induction 1 as [|ne entries [out Hne] _ IH]; cbn [map_result].
  - exists []. split; reflexivity.
  - destruct IH as (results & Hres & Hflat).
    fold (map_result f) in *. rewrite Hne, Hres.
    exists (([], out) :: results). split; [reflexivity|].
    unfold _flatten in *. cbn. exact Hflat.
Qed.

(** Discovery in a tree without repositories, all of whose directories can
    be listed. *)
Lemma walk_no_repositories (e : Entry) :
  forall dir,
    readable e = true ->
    no_repositories discover_repository dir e = true ->
    exists out,
      walk dir e = Ok ([], out) /\
      (unprocessable dir = false -> out = [dir]).
Proof.
  induction e as [|entries IH|] using Entry_tree_ind;
    intros dir Hread Hnone; rewrite _do_get_git_repos_eq.
  - destruct (unprocessable dir); eexists; split; try reflexivity.
    discriminate.
  - destruct (unprocessable dir).
    { eexists; split; [reflexivity|discriminate]. }
    unfold no_repositories in Hnone. cbn [directories forallb] in Hnone.
    apply andb_true_iff in Hnone as [Hdir Hbelow].
    apply negb_true_iff in Hdir. rewrite Hdir.
    cbn [readable] in Hread. rewrite forallb_forall in Hread.
    destruct (map_result_no_repos
                (fun ne => walk (joinpath dir (fst ne)) (snd ne)) entries)
      as (results & Hres & Hflat).
    { rewrite Forall_forall in IH. apply Forall_forall. intros ne Hin.
      destruct (IH ne Hin (joinpath dir (fst ne)) (Hread ne Hin))
        as (out & Hout & _).
      - unfold no_repositories. apply forallb_forall. intros d Hd.
        rewrite forallb_forall in Hbelow. apply Hbelow.
        apply in_flat_map. exists ne. split; assumption.
      - exists out. exact Hout. }
    rewrite Hres. cbn zeta. rewrite Hflat. cbn.
    eexists; split; reflexivity.
  - discriminate Hread.
Qed.

(** C3, amended: in a tree all of whose directories can be listed, for
    which the library finds no repository at or above any directory, and
    whose root discovery does not skip, discovery returns no repository and
    one outside entry, the root. *)
Theorem discovery_no_repositories (dir : Path) (e : Entry) :
  unprocessable dir = false ->
  readable e = true ->
  no_repositories discover_repository dir e = true ->
  walk dir e = Ok ([], [dir]).
Proof.
  intros Hdir Hread Hnone.
  destruct (walk_no_repositories e dir Hread Hnone) as (out & Hwalk & Hout).
  rewrite Hwalk, (Hout Hdir). reflexivity.
Qed.

(** C9: a path that matches the pattern yields no repository, no outside
    entry and no exception, whatever the file system holds there. *)
Theorem discovery_unprocessable (dir : Path) (e : Entry) :
  unprocessable dir = true ->
  walk dir e = Ok ([], []).
Proof.
  intros Hdir. rewrite _do_get_git_repos_eq, Hdir. reflexivity.
Qed.

(** C1, what the code does: when discovery finds no repository and the
    table is requested, the count line is printed and the width
    computation raises [ValueError]. *)
Theorem summary_no_repositories
    (cwd : Path) (fs : Entry) (fetch : bool) (w : World)
    (outside : list Path) :
  walk cwd fs = Ok ([], outside) ->
  _get_git_summary discover_repository Repository_new cwd fs
    fetch false false w
  = (Raise ValueError,
     mkWorld (stdout w ++ ["Found 0 Git repositories."])%list (stderr w)).
Proof.
  intros Hwalk.
  unfold _get_git_summary, _get_git_repos.
  cbn [orb negb]. unfold bind at 1 2, lift at 1. rewrite Hwalk.
  reflexivity.
Qed.

End Discovery.

(** C3, as stated, fails: the root itself can match the pattern. *)
Lemma discovery_no_repositories_counterexample :
  ~ (forall discover_repository Repository_new dir e,
        no_repositories discover_repository dir e = true ->
        _do_get_git_repos discover_repository Repository_new dir e
        = Ok ([], [dir])).
Proof.
  intros H.
  specialize (H no_discovery no_constructor
                ["home"; "Special Characters"] (Dir []) eq_refl).
  vm_compute in H. discriminate H.
Qed.

Lemma discovery_no_repositories_witness :
  _do_get_git_repos no_discovery no_constructor ["home"; "notes"]
    (Dir [("todo.txt", File); ("old", Dir [("a.txt", File)])])
  = Ok ([], [["home"; "notes"]]).
Proof.
  apply discovery_no_repositories; reflexivity.
Defined.

Lemma discovery_unprocessable_witness :
  _do_get_git_repos (fun _ => Some "/home/Special Characters/.git/")
    no_constructor ["home"; "Special Characters"]
    (Dir [(".git", Dir []); ("a.txt", File)])
  = Ok ([], []).
Proof.
  apply discovery_unprocessable; reflexivity.
Defined.

Lemma summary_no_repositories_witness :
  _get_git_summary no_discovery no_constructor ["home"; "empty"] (Dir [])
    false false false empty_world
  = (Raise ValueError, mkWorld ["Found 0 Git repositories."] []).
Proof.
  apply (summary_no_repositories no_discovery no_constructor
           ["home"; "empty"] (Dir []) false empty_world [["home"; "empty"]]).
  reflexivity.
Defined.

(** ** Strings and paths, continued *)

Lemma append_assoc (a b c : string) : (a ++ b) ++ c = a ++ (b ++ c).
Proof. induction a as [|x a IH]; cbn; [reflexivity|now rewrite IH]. Qed.

Lemma startswith_app (p s t : string) :
  PyStr.startswith p s = true -> PyStr.startswith p (s ++ t) = true.
Proof.
  revert s. induction p as [|a p IH]; intros [|b s]; cbn; try easy.
  intros H. apply andb_true_iff in H as [Hab Hps].
  now rewrite Hab, IH.
Qed.

Lemma contains_app (needle hay t : string) :
  PyStr.contains needle hay = true ->
  PyStr.contains needle (hay ++ t) = true.
Proof.
  induction hay as [|c hay IH]; cbn [PyStr.contains].
  - rewrite orb_false_r. intros H.
    destruct needle; [|discriminate]. destruct t; reflexivity.
  - intros H. apply orb_true_iff in H as [H|H].
    + change (String c hay ++ t) with (String c (hay ++ t)).
      cbn [PyStr.contains].
      change (String c (hay ++ t)) with (String c hay ++ t).
      now rewrite (startswith_app _ _ _ H).
    + change (String c hay ++ t) with (String c (hay ++ t)).
      cbn [PyStr.contains]. rewrite (IH H). apply orb_true_r.
Qed.

Lemma join_snoc (sep : string) (p : list string) (n : string) :
  PyStr.join sep (p ++ [n])%list
  = match p with
    | [] => n
    | _ => PyStr.join sep p ++ sep ++ n
    end.
Proof.
  induction p as [|a p IH]; [reflexivity|].
  destruct p as [|b p]; [reflexivity|].
  change ((a :: b :: p) ++ [n])%list with (a :: ((b :: p) ++ [n]))%list.
  change (PyStr.join sep (a :: (b :: p) ++ [n])%list)
    with (a ++ sep ++ PyStr.join sep ((b :: p) ++ [n])%list).
  rewrite IH.
  change (PyStr.join sep (a :: b :: p))
    with (a ++ sep ++ PyStr.join sep (b :: p)).
  now rewrite !append_assoc.
Qed.

(** The string of a path begins with the string of its parent. *)
Lemma str_Path_joinpath (dir : Path) (n : string) :
  exists suffix, str_Path (joinpath dir n) = str_Path dir ++ suffix.
Proof.
  unfold str_Path, joinpath. rewrite join_snoc.
  destruct dir as [|a dir].
  - exists n. reflexivity.
  - exists ("/" ++ n). now rewrite !append_assoc.
Qed.

Lemma unprocessable_joinpath (dir : Path) (n : string) :
  unprocessable dir = true -> unprocessable (joinpath dir n) = true.
Proof.
  unfold unprocessable. intros H.
  destruct (str_Path_joinpath dir n) as [suffix ->].
  now apply contains_app.
Qed.

(** ** Discovery, continued: trees covered by repositories *)

Lemma leaves_nonempty (e : Entry) : forall dir, leaves dir e <> [].
Proof.
  induction e as [|entries IH|] using Entry_tree_ind; intros dir;
    cbn [leaves]; [discriminate| |discriminate].
  destruct entries as [|ne entries]; [discriminate|].
  inversion IH as [|? ? Hne _]; subst.
  specialize (Hne (joinpath dir (fst ne))).
  cbn [flat_map].
  destruct (leaves (joinpath dir (fst ne)) (snd ne)); [contradiction|].
  discriminate.
Qed.

(** Below a path that discovery skips, every path is skipped. *)
Lemma leaves_unprocessable (e : Entry) :
  forall dir leaf d,
    unprocessable dir = true ->
    In leaf (leaves dir e) -> In d (snd leaf) ->
    unprocessable d = true.
Proof.
  induction e as [|entries IH|] using Entry_tree_ind;
    intros dir leaf d Hdir Hleaf Hd; cbn [leaves] in Hleaf.
  - destruct Hleaf as [<- | []]. destruct Hd.
  - apply in_map_iff in Hleaf as (leaf' & <- & Hleaf').
    cbn [snd] in Hd. destruct Hd as [<- | Hd]; [exact Hdir|].
    destruct entries as [|ne0 entries0].
    + destruct Hleaf' as [<- | []]. destruct Hd.
    + apply in_flat_map in Hleaf' as (ne & Hne & Hin).
      rewrite Forall_forall in IH.
      apply (IH ne Hne (joinpath dir (fst ne)) leaf' d); try assumption.
      now apply unprocessable_joinpath.
  - destruct Hleaf as [<- | []]. cbn [snd] in Hd.
    destruct Hd as [<- | []]. exact Hdir.
Qed.

(** What a comprehension returns, element by element. *)
Lemma map_result_Forall2 {A B} (f : A -> result B) (l : list A) :
  forall results,
    map_result f l = Ok results ->
    Forall2 (fun x r => f x = Ok r) l results.
Proof.
  induction l as [|x l IH]; cbn [map_result]; intros results H.
  - injection H as <-. constructor.
  - fold (map_result f) in H.
    destruct (f x) as [y|] eqn:Hx; [|discriminate].
    destruct (map_result f l) as [ys|]; [|discriminate].
    injection H as <-. constructor; [exact Hx|]. now apply IH.
Qed.

Lemma Forall2_Forall_r {A B} (R : A -> B -> Prop) (P : B -> Prop)
    (l : list A) (l' : list B) :
  Forall2 R l l' ->
  Forall (fun x => forall r, R x r -> P r) l ->
  Forall P l'.
Proof.
  induction 1 as [|x r l l' Hxr _ IH]; intros Hall; constructor;
    inversion Hall; subst; auto.
Qed.

(** A comprehension returns when every element does. *)
Lemma map_result_returns {A B} (f : A -> result B) (l : list A) :
  Forall (fun x => exists r, f x = Ok r) l ->
  exists results, map_result f l = Ok results.
Proof.
  induction 1 as [|x l [r Hx] _ [rs IH]]; cbn [map_result].
  - eexists; reflexivity.
  - fold (map_result f). rewrite Hx, IH. eexists; reflexivity.
Qed.

Section Coverage.

Variable discover_repository : string -> option string.
Variable Repository_new : string -> result Repository.

Local Abbreviation walk :=
  (_do_get_git_repos discover_repository Repository_new).
Local Abbreviation covered := (every_leaf_in_repository discover_repository).
Local Abbreviation in_repo := (in_repository discover_repository).

Lemma covered_not_unprocessable (dir : Path) (e : Entry) :
  covered dir e = true -> unprocessable dir = false.
Proof.
  intros Hcov. destruct (unprocessable dir) eqn:Hdir; [|reflexivity].
  exfalso. unfold every_leaf_in_repository in Hcov.
  rewrite forallb_forall in Hcov.
  destruct (leaves dir e) as [|leaf rest] eqn:Hleaves.
  { now apply (leaves_nonempty e dir). }
  specialize (Hcov leaf (or_introl eq_refl)).
  apply existsb_exists in Hcov as (d & Hd & Hok).
  apply andb_true_iff in Hok as [_ Hok]. apply negb_true_iff in Hok.
  rewrite (leaves_unprocessable e dir leaf d Hdir) in Hok;
    [discriminate| |exact Hd].
  rewrite Hleaves. now left.
Qed.

(** In a directory outside every repository, the leaves of each entry are
    covered below it. *)
Lemma covered_entries (dir : Path) (entries : list (string * Entry)) :
  in_repo dir = false ->
  covered dir (Dir entries) = true ->
  entries <> [] /\
  forall ne, In ne entries -> covered (joinpath dir (fst ne)) (snd ne) = true.
Proof.
  intros Hdir Hcov. unfold every_leaf_in_repository in *.
  rewrite forallb_forall in Hcov. cbn [leaves] in Hcov. split.
  - intros ->. specialize (Hcov (dir, [dir]) (or_introl eq_refl)).
    cbn [snd existsb] in Hcov.
    rewrite Hdir in Hcov. discriminate.
  - intros ne Hne. apply forallb_forall. intros leaf Hleaf.
    specialize (Hcov (fst leaf, dir :: snd leaf)).
    cbn [snd existsb] in Hcov.
    rewrite Hdir in Hcov. cbn [andb orb] in Hcov. apply Hcov.
    apply (in_map (fun leaf : Path * list Path =>
                     (fst leaf, dir :: snd leaf))).
    destruct entries as [|ne0 entries0]; [destruct Hne|].
    apply in_flat_map. exists ne. split; assumption.
Qed.

(** Discovery in a covered tree: repositories, and nothing outside. *)
Lemma walk_covered (e : Entry) :
  forall dir res,
    covered dir e = true ->
    walk dir e = Ok res ->
    fst res <> [] /\ snd res = [].
Proof.
  induction e as [|entries IH|] using Entry_tree_ind;
    intros dir res Hcov Hwalk.
  - discriminate Hcov.
  - rewrite _do_get_git_repos_eq in Hwalk.
    rewrite (covered_not_unprocessable _ _ Hcov) in Hwalk.
    destruct (in_repo dir) eqn:Hdir.
    { destruct (Repository_new _) as [repo|]; [|discriminate].
      injection Hwalk as <-. split; [discriminate|reflexivity]. }
    destruct (covered_entries dir entries Hdir Hcov) as [Hne Hbelow].
    destruct (map_result _ entries) as [results|] eqn:Hres; [|discriminate].
    apply map_result_Forall2 in Hres.
    assert (Hall : Forall (fun r : list Repository * list Path =>
                             fst r <> [] /\ snd r = []) results).
    { apply (Forall2_Forall_r _ _ _ _ Hres).
      apply Forall_forall. intros ne Hin r Hr.
      rewrite Forall_forall in IH.
      apply (IH ne Hin (joinpath dir (fst ne)) r); [now apply Hbelow|exact Hr]. }
    assert (Hrepos : _flatten (map fst results) <> []).
    { inversion Hres as [|ne r ? ? _ _]; subst; [contradiction|].
      inversion Hall as [|? ? [Hr _] _]; subst.
      unfold _flatten. cbn. destruct (fst r); [contradiction|discriminate]. }
    assert (Hout : _flatten (map snd results) = []).
    { clear - Hall. induction Hall as [|r results' [_ Hr] _ IHall];
        [reflexivity|].
      unfold _flatten in *. cbn. now rewrite Hr, IHall. }
    cbn zeta in Hwalk.
    destruct (_flatten (map fst results)) as [|repo repos] eqn:Hflat;
      [contradiction|].
    cbn in Hwalk. injection Hwalk as <-. cbn [fst snd].
    split; [discriminate|exact Hout].
  - rewrite _do_get_git_repos_eq in Hwalk.
    rewrite (covered_not_unprocessable _ _ Hcov) in Hwalk.
    destruct (in_repo dir); [|discriminate].
    destruct (Repository_new _) as [repo|]; [|discriminate].
    injection Hwalk as <-. split; [discriminate|reflexivity].
Qed.

(** Discovery in a covered tree returns when the constructor accepts every
    path: no directory outside a repository is listed in vain. *)
Lemma walk_covered_returns (e : Entry) :
  (forall s, exists repo, Repository_new s = Ok repo) ->
  forall dir, covered dir e = true -> exists res, walk dir e = Ok res.
Proof.
  intros Hnew.
  induction e as [|entries IH|] using Entry_tree_ind; intros dir Hcov;
    rewrite _do_get_git_repos_eq;
    rewrite (covered_not_unprocessable _ _ Hcov).
  - eexists; reflexivity.
  - destruct (in_repo dir) eqn:Hdir.
    + destruct (Hnew (match discover_repository (str_Path dir) with
                      | Some s => s
                      | None => ""
                      end)) as [repo ->].
      eexists; reflexivity.
    + destruct (covered_entries dir entries Hdir Hcov) as [_ Hbelow].
      destruct (map_result_returns
                  (fun ne : string * Entry =>
                     walk (joinpath dir (fst ne)) (snd ne)) entries)
        as [results Hres].
      { apply Forall_forall. intros ne Hin. rewrite Forall_forall in IH.
        apply (IH ne Hin). now apply Hbelow. }
      rewrite Hres. cbn zeta.
      destruct (negb _); eexists; reflexivity.
  - unfold every_leaf_in_repository in Hcov.
    cbn [leaves forallb snd existsb] in Hcov.
    rewrite !orb_false_r, andb_true_r in Hcov.
    apply andb_true_iff in Hcov as [-> _].
    destruct (Hnew (match discover_repository (str_Path dir) with
                    | Some s => s
                    | None => ""
                    end)) as [repo ->].
    eexists; reflexivity.
Qed.

(** C4: when every leaf of the tree lies inside a repository that
    discovery returns, the list of outside entries that discovery returns
    is empty; and discovery does return when the constructor accepts the
    paths it is given. *)
Theorem discovery_covered (dir : Path) (e : Entry) :
  every_leaf_in_repository discover_repository dir e = true ->
  (forall repos outside,
      walk dir e = Ok (repos, outside) -> outside = []) /\
  ((forall s, exists repo, Repository_new s = Ok repo) ->
   exists repos, walk dir e = Ok (repos, [])).
Proof.
  intros Hcov. split.
  - intros repos outside Hwalk.
    apply (walk_covered e dir (repos, outside) Hcov Hwalk).
  - intros Hnew.
    destruct (walk_covered_returns e Hnew dir Hcov) as [[repos outside] Hwalk].
    destruct (walk_covered e dir (repos, outside) Hcov Hwalk) as [_ Hout].
    cbn [snd] in Hout. subst outside. exists repos. exact Hwalk.
Qed.

End Coverage.

Lemma discovery_covered_witness :
  (forall repos outside,
      _do_get_git_repos two_repos_discovery sample_constructor ["work"]
        two_repos_tree = Ok (repos, outside) ->
      outside = []) /\
  ((forall s, exists repo, sample_constructor s = Ok repo) ->
   exists repos,
     _do_get_git_repos two_repos_discovery sample_constructor ["work"]
       two_repos_tree = Ok (repos, [])).
Proof.
  apply (discovery_covered two_repos_discovery sample_constructor ["work"]
           two_repos_tree).
  reflexivity.
Defined.

Example two_repos_paths :
  result_map (fun res => (map path (fst res), snd res))
    (_do_get_git_repos two_repos_discovery sample_constructor ["work"]
       two_repos_tree)
  = Ok (["/work/app/.git/"; "/work/lib/.git/"], []).
Proof. reflexivity. Qed.

(** ** The two variants *)

Lemma valid_name_startswith (n : string) :
  valid_name n = true -> PyStr.startswith "/" n = false.
Proof.
  unfold valid_name. intros H. apply andb_true_iff in H as [_ H].
  apply negb_true_iff in H. destruct n as [|c n]; [reflexivity|].
  cbn [PyStr.contains] in H. now apply orb_false_iff in H as [H _].
Qed.

Lemma no_slash_endswith (n : string) :
  PyStr.contains "/" n = false -> PyStr.endswith_slash n = false.
Proof.
  induction n as [|c n IH]; [reflexivity|].
  cbn [PyStr.contains]. intros H. apply orb_false_iff in H as [Hc Hn].
  cbn [PyStr.startswith] in Hc. rewrite andb_false_iff in Hc.
  cbn [PyStr.endswith_slash]. destruct n as [|d n].
  - destruct Hc as [Hc|Hc]; [|discriminate]. now rewrite Ascii.eqb_sym.
  - now apply IH.
Qed.

Lemma endswith_slash_app (s t : string) :
  t <> "" -> PyStr.endswith_slash (s ++ t) = PyStr.endswith_slash t.
Proof.
  intros Ht. induction s as [|c s IH]; [reflexivity|].
  change (String c s ++ t) with (String c (s ++ t)).
  cbn [PyStr.endswith_slash]. rewrite <- IH.
  destruct (s ++ t) eqn:Hst; [|reflexivity].
  destruct s; [cbn in Hst; contradiction|discriminate].
Qed.

Lemma join_valid (dir : Path) :
  dir <> [] -> valid_path dir = true ->
  PyStr.join "/" dir <> "" /\
  PyStr.endswith_slash (PyStr.join "/" dir) = false.
Proof.
  induction dir as [|a dir IH]; [contradiction|]. intros _ Hvalid.
  cbn [valid_path forallb] in Hvalid.
  apply andb_true_iff in Hvalid as [Ha Hdir].
  unfold valid_name in Ha. apply andb_true_iff in Ha as [Hne Hslash].
  apply negb_true_iff in Hne, Hslash. apply String.eqb_neq in Hne.
  destruct dir as [|b dir].
  - cbn [PyStr.join]. split; [exact Hne|now apply no_slash_endswith].
  - destruct (IH ltac:(discriminate) Hdir) as [Hjoin Hend].
    change (PyStr.join "/" (a :: b :: dir))
      with (a ++ "/" ++ PyStr.join "/" (b :: dir)).
    split.
    + destruct a; [contradiction|discriminate].
    + rewrite endswith_slash_app by discriminate.
      now rewrite endswith_slash_app.
Qed.

(** [os.path.join] on the string of a path is the string of the path of the
    entry. *)
Lemma os_path_join_str (dir : Path) (n : string) :
  valid_path dir = true -> valid_name n = true ->
  os_path_join (str_Path dir) n = str_Path (joinpath dir n).
Proof.
  intros Hdir Hn. unfold os_path_join.
  rewrite (valid_name_startswith n Hn).
  unfold str_Path, joinpath. rewrite join_snoc.
  destruct dir as [|a dir]; [reflexivity|].
  destruct (join_valid (a :: dir) ltac:(discriminate) Hdir) as [Hjoin Hend].
  change (("/" ++ PyStr.join "/" (a :: dir) =? "")%string) with false.
  rewrite endswith_slash_app by exact Hjoin. rewrite Hend.
  cbn [orb]. now rewrite !append_assoc.
Qed.

Lemma map_result_fst {A B C} (fo : A -> result B) (fn : A -> result (B * C))
    (l : list A) :
  Forall (fun x => fo x = result_map fst (fn x)) l ->
  map_result fo l = result_map (map fst) (map_result fn l).
Proof.
  induction 1 as [|x l Hx _ IH]; cbn [map_result]; [reflexivity|].
  fold (map_result fo) (map_result fn). rewrite Hx, IH.
  destruct (fn x) as [y|]; [|reflexivity].
  destruct (map_result fn l); reflexivity.
Qed.

Section Variants.

Variable discover_repository : string -> option string.
Variable Repository_new : string -> result Repository.

Local Abbreviation walk :=
  (_do_get_git_repos discover_repository Repository_new).
Local Abbreviation walk_old :=
  (Old._get_git_repos discover_repository Repository_new).

Lemma _get_git_repos_old_eq (dir : string) (e : Entry) :
  walk_old dir e =
  if PyStr.contains "Special Characters" dir then Ok []
  else
    match e with
    | File => Ok []
    | Dir entries =>
        if truthy (discover_repository dir) then
          match Repository_new
                  (match discover_repository dir with
                   | Some s => s
                   | None => ""
                   end) with
          | Raise x => Raise x
          | Ok repo => Ok [repo]
          end
        else
          match map_result
                  (fun ne : string * Entry =>
                     walk_old (os_path_join dir (fst ne)) (snd ne))
                  entries with
          | Raise x => Raise x
          | Ok results => Ok (Old._flatten results)
          end
      | Unreadable =>
          if truthy (discover_repository dir) then
            match Repository_new
                    (match discover_repository dir with
                     | Some s => s
                     | None => ""
                     end) with
            | Raise x => Raise x
            | Ok repo => Ok [repo]
            end
          else Raise PermissionError
    end.
Proof. destruct e; reflexivity. Qed.

(** The older discovery returns the repositories of the newer one, and
    raises when it does. *)
Lemma walk_old_walk (e : Entry) :
  forall dir,
    valid_path dir = true -> valid_tree e = true ->
    walk_old (str_Path dir) e = result_map fst (walk dir e).
Proof.
  induction e as [|entries IH|] using Entry_tree_ind; intros dir Hdir Htree;
    rewrite _get_git_repos_old_eq;
    rewrite _do_get_git_repos_eq; unfold unprocessable, in_repository.
  - destruct (PyStr.contains _ _); reflexivity.
  - destruct (PyStr.contains _ _); [reflexivity|].
    destruct (truthy _).
    { destruct (Repository_new _); reflexivity. }
    rewrite (map_result_fst _
               (fun ne : string * Entry =>
                  walk (joinpath dir (fst ne)) (snd ne))).
    + destruct (map_result _ entries) as [results|];
        [|reflexivity].
      cbn [result_map]. cbn zeta. destruct (negb _); reflexivity.
    + cbn [valid_tree] in Htree. rewrite forallb_forall in Htree.
      rewrite Forall_forall in IH. apply Forall_forall. intros ne Hin.
      specialize (Htree ne Hin). apply andb_true_iff in Htree as [Hn Hc].
      rewrite (os_path_join_str dir (fst ne) Hdir Hn).
      apply (IH ne Hin); [|exact Hc].
      unfold valid_path, joinpath in *. rewrite forallb_app, Hdir.
      cbn [forallb andb]. now rewrite Hn.
  - destruct (PyStr.contains _ _); [reflexivity|].
    destruct (truthy _); [|reflexivity].
    destruct (Repository_new _); reflexivity.
Qed.

(** C10: the older discovery returns the repository list that is the first
    component of the newer one's result, and the older [Old.get_status]
    returns the record of the newer [_get_status] without fetch. *)
Theorem variants_agree
    (dir : Path) (e : Entry) (repo : Repository) (name : string)
    (w : World) :
  valid_path dir = true -> valid_tree e = true ->
  walk_old (str_Path dir) e = result_map fst (walk dir e) /\
  _get_status repo name false w = (Old.get_status repo name, w).
Proof.
  intros Hdir Htree. split.
  - now apply walk_old_walk.
  - apply _get_status_no_fetch.
Qed.

End Variants.

Lemma variants_agree_witness :
  Old._get_git_repos two_repos_discovery sample_constructor
    (str_Path ["work"]) two_repos_tree
  = result_map fst
      (_do_get_git_repos two_repos_discovery sample_constructor ["work"]
         two_repos_tree) /\
  _get_status repo_offline "app" false empty_world
  = (Old.get_status repo_offline "app", empty_world).
Proof.
  apply (variants_agree two_repos_discovery sample_constructor ["work"]
           two_repos_tree repo_offline "app" empty_world); reflexivity.
Defined.

(** ** Sample runs *)

Example summary_mixed_tree :
  _get_git_summary two_repos_discovery mixed_constructor ["work"] mixed_tree
    true true false empty_world
  = (Ok tt,
     mkWorld
       ["OUTSIDE: notes/"; "OUTSIDE: zz.txt"; "Found 2 Git repositories.";
        "!  app        main      * >12 <1";
        "   lib  [LR]  (a1b2c3)         "]
       ["WARN: Failed to fetch repo 'app'"]).
Proof. vm_compute. reflexivity. Qed.

(** Below the root of a repository the library finds the repository
    above: the tree contains none, and discovery returns that one. *)
Example discovery_below_repository_root :
  result_map (fun res => (map path (fst res), snd res))
    (_do_get_git_repos two_repos_discovery sample_constructor
       ["work"; "app"; "src"] (Dir [("x.py", File)]))
  = Ok (["/work/app/.git/"], []).
Proof. reflexivity. Qed.

(** A directory that cannot be listed ends discovery. *)
Example discovery_unreadable_directory :
  _do_get_git_repos no_discovery no_constructor ["home"; "notes"]
    (Dir [("todo.txt", File); ("private", Unreadable)])
  = Raise PermissionError.
Proof. reflexivity. Qed.

Example only_outside_mixed_tree :
  _get_git_summary two_repos_discovery mixed_constructor ["work"] mixed_tree
    false false true empty_world
  = (Ok tt, mkWorld ["OUTSIDE: notes/"; "OUTSIDE: zz.txt"] []).
Proof. vm_compute. reflexivity. Qed.

Example repo_name_below_cwd :
  _get_repo_name repo_offline ["work"] = Ok "app".
Proof. reflexivity. Qed.

(** * Further properties *)

(** ** Discovery: where results come from *)


Lemma in_flatten {T} (x : T) (l : list (list T)) :
  In x (_flatten l) -> exists sub, In sub l /\ In x sub.
Proof.
  unfold _flatten. intros H. apply in_flat_map in H. exact H.
Qed.

Lemma Forall2_in_r {A B} (R : A -> B -> Prop) (l : list A) (l' : list B) :
  Forall2 R l l' -> forall b, In b l' -> exists a, In a l /\ R a b.
Proof.
  induction 1 as [|a b l l' Hab _ IH]; intros b' Hin; [destruct Hin|].
  destruct Hin as [<- | Hin].
  - exists a. split; [now left|exact Hab].
  - destruct (IH b' Hin) as (a' & Ha' & HR). exists a'. split; [now right|exact HR].
Qed.

Lemma truthy_Some (r : option string) :
  truthy r = true -> exists s, r = Some s /\ s <> "".
Proof.
  destruct r as [s|]; [|discriminate]. cbn [truthy]. intros H.
  apply negb_true_iff, String.eqb_neq in H. now exists s.
Qed.

Section Provenance.

Variable discover_repository : string -> option string.
Variable Repository_new : string -> result Repository.

Local Abbreviation walk :=
  (_do_get_git_repos discover_repository Repository_new).


(** X2: every repository that discovery returns is what the constructor made
    of the path that the library found for a directory of the tree, one that
    the guard does not skip. *)
Theorem discovery_repositories_found (e : Entry) :
  forall dir repos outside repo,
    walk dir e = Ok (repos, outside) ->
    In repo repos ->
    exists d s,
      In d (directories dir e) /\
      unprocessable d = false /\
      discover_repository (str_Path d) = Some s /\
      s <> "" /\
      Repository_new s = Ok repo.
Proof.
  induction e as [|entries IH|] using Entry_tree_ind;
    intros dir repos outside repo; rewrite _do_get_git_repos_eq.
  - destruct (unprocessable dir); intros H; injection H as <- _; intros [].
  - destruct (unprocessable dir) eqn:Hguard;
      [intros H; injection H as <- _; intros []|].
    unfold in_repository.
    destruct (truthy (discover_repository (str_Path dir))) eqn:Hdir.
    + destruct (truthy_Some _ Hdir) as (s & Hs & Hne). rewrite Hs.
      destruct (Repository_new s) as [r|x'] eqn:Hnew; [|discriminate].
      intros H. injection H as <- _. intros [<- | []].
      exists dir, s. split; [now left|]. repeat split; assumption.
    + destruct (map_result _ entries) as [results|x'] eqn:Hres;
        [|discriminate].
      apply map_result_Forall2 in Hres. cbn zeta.
      intros H Hin.
      assert (Hrepos : In repo (_flatten (map fst results))).
      { destruct (negb _); injection H as <- _; exact Hin. }
      apply in_flatten in Hrepos as (sub & Hsub & Hrepo).
      apply in_map_iff in Hsub as ([rs os] & <- & Hres_in).
      destruct (Forall2_in_r _ _ _ Hres _ Hres_in) as (ne & Hne & Hwalk).
      rewrite Forall_forall in IH.
      destruct (IH ne Hne _ _ _ _ Hwalk Hrepo)
        as (d & s & Hd & Hguard' & Hs & Hnes & Hnew).
      exists d, s. split; [|repeat split; assumption].
      cbn [directories]. right. apply in_flat_map. exists ne. now split.
  - destruct (unprocessable dir) eqn:Hguard;
      [intros H; injection H as <- _; intros []|].
    unfold in_repository.
    destruct (truthy (discover_repository (str_Path dir))) eqn:Hdir;
      [|discriminate].
    destruct (truthy_Some _ Hdir) as (s & Hs & Hne). rewrite Hs.
    destruct (Repository_new s) as [r|x'] eqn:Hnew; [|discriminate].
    intros H. injection H as <- _. intros [<- | []].
    exists dir, s. split; [now left|]. repeat split; assumption.
Qed.

(** X3: when discovery returns no repository, the outside entries are the root
    alone, or nothing when the guard skips the root. *)
Theorem discovery_collapses (dir : Path) (e : Entry) (outside : list Path) :
  walk dir e = Ok ([], outside) ->
  outside = if unprocessable dir then [] else [dir].
Proof.
  rewrite _do_get_git_repos_eq.
  destruct (unprocessable dir); [intros H; now injection H as <-|].
  destruct e as [|entries|]; [intros H; now injection H as <-| |].
  - destruct (in_repository discover_repository dir).
    { destruct (Repository_new _); discriminate. }
    destruct (map_result _ entries) as [results|]; [|discriminate].
    cbn zeta. destruct (_flatten (map fst results)) as [|r rs]; cbn.
    + intros H. now injection H as <-.
    + discriminate.
  - destruct (in_repository discover_repository dir); [|discriminate].
    destruct (Repository_new _); discriminate.
Qed.

End Provenance.

Lemma discovery_collapses_witness :
  [["home"; "notes"]]
  = if unprocessable ["home"; "notes"] then [] else [["home"; "notes"]].
Proof.
  apply (discovery_collapses no_discovery no_constructor ["home"; "notes"]
           (Dir [("todo.txt", File); ("old", Dir [("a.txt", File)])])).
  reflexivity.
Defined.


Lemma discovery_repositories_found_witness :
  exists d s,
    In d (directories ["work"] two_repos_tree) /\
    unprocessable d = false /\
    two_repos_discovery (str_Path d) = Some s /\
    s <> "" /\
    sample_constructor s = sample_constructor "/work/lib/.git/".
Proof.
  apply (discovery_repositories_found two_repos_discovery sample_constructor
           two_repos_tree ["work"]
           (map (fun s => mkRepository s false false 7%N "main"
                            (fun _ => None) [] [] (fun _ _ => (0, 0)%N))
                ["/work/app/.git/"; "/work/lib/.git/"]) []).
  - reflexivity.
  - right. left. reflexivity.
Defined.

(** ** Sorting *)

Section SortFacts.

Context {A : Type} (lt : A -> A -> bool).

Lemma insert_sorted_perm (x : A) (l : list A) :
  Permutation (insert_sorted lt x l) (x :: l).
Proof.
  induction l as [|y l IH]; cbn [insert_sorted]; [reflexivity|].
  destruct (lt x y); [reflexivity|].
  rewrite IH. apply perm_swap.
Qed.

Lemma py_sort_perm (l : list A) : Permutation (py_sort lt l) l.
Proof.
  unfold py_sort.
  assert (Hgen : forall acc,
             Permutation
               (fold_left (fun acc x => insert_sorted lt x acc) l acc)
               (acc ++ l)%list).
  { induction l as [|x l IH]; intros acc; cbn [fold_left].
    - now rewrite app_nil_r.
    - rewrite IH, insert_sorted_perm. apply Permutation_middle. }
  apply (Hgen []).
Qed.

Hypothesis lt_asym : forall a b, lt a b = true -> lt b a = false.

Lemma insert_sorted_sorted (x : A) (l : list A) :
  Sorted (in_order lt) l -> Sorted (in_order lt) (insert_sorted lt x l).
Proof.
  induction 1 as [|y l Hl IH Hhd]; cbn [insert_sorted].
  - repeat constructor.
  - destruct (lt x y) eqn:Hxy.
    + constructor; [now constructor|]. constructor. unfold in_order.
      now apply lt_asym.
    + constructor; [exact IH|].
      destruct l as [|z l]; cbn [insert_sorted].
      * constructor. exact Hxy.
      * destruct (lt x z); constructor; [exact Hxy|].
        now inversion Hhd.
Qed.

Lemma py_sort_sorted (l : list A) : Sorted (in_order lt) (py_sort lt l).
Proof.
  unfold py_sort.
  assert (Hgen : forall acc,
             Sorted (in_order lt) acc ->
             Sorted (in_order lt)
               (fold_left (fun acc x => insert_sorted lt x acc) l acc)).
  { induction l as [|x l IH]; intros acc Hacc; cbn [fold_left];
      [exact Hacc|].
    apply IH, insert_sorted_sorted, Hacc. }
  apply Hgen. constructor.
Qed.

End SortFacts.

Lemma String_compare_refl (a : string) : String.compare a a = Eq.
Proof.
  pose proof (String.compare_antisym a a) as H.
  destruct (String.compare a a); [reflexivity|discriminate|discriminate].
Qed.

Lemma String_ltb_asym (a b : string) :
  String.ltb a b = true -> String.ltb b a = false /\ String.eqb b a = false.
Proof.
  unfold String.ltb. rewrite (String.compare_antisym b a).
  destruct (String.compare a b) eqn:Hc; try discriminate. intros _.
  split; [reflexivity|]. apply String.eqb_neq. intros ->.
  rewrite String_compare_refl in Hc. discriminate.
Qed.

Lemma String_ltb_irrefl (a : string) : String.ltb a a = false.
Proof. unfold String.ltb. now rewrite String_compare_refl. Qed.

Lemma path_lt_asym (p : Path) :
  forall q, path_lt p q = true -> path_lt q p = false.
Proof.
  induction p as [|a p IH]; intros [|b q]; cbn [path_lt]; try easy.
  intros H. apply orb_true_iff in H as [H|H].
  - destruct (String_ltb_asym a b H) as [-> ->]. reflexivity.
  - apply andb_true_iff in H as [Hab Hpq]. apply String.eqb_eq in Hab.
    subst b. rewrite String_ltb_irrefl, String.eqb_refl, (IH q Hpq).
    reflexivity.
Qed.

Lemma name_lt_asym (a b : RepoStatus) :
  String.ltb (name a) (name b) = true -> String.ltb (name b) (name a) = false.
Proof. intros H. now destruct (String_ltb_asym _ _ H). Qed.

(** ** The outside entries and their listing *)

Lemma relative_to_app (other rel : list string) :
  relative_to (other ++ rel)%list other = Ok rel.
Proof.
  induction other as [|o other IH]; [now destruct rel|].
  cbn [app relative_to]. now rewrite String.eqb_refl.
Qed.

Lemma fs_find_cons (n0 : string) (c0 : Entry) (l : list (string * Entry))
    (n : string) (rel : list string) :
  fs_find (Dir ((n0, c0) :: l)) (n :: rel)
  = if String.eqb n0 n then fs_find c0 rel else fs_find (Dir l) (n :: rel).
Proof. reflexivity. Qed.

(** In a directory whose names differ, a name leads to its entry. *)
Lemma fs_find_entry (entries : list (string * Entry)) (ne : string * Entry)
    (rel : list string) :
  names_differ (map fst entries) = true ->
  In ne entries ->
  fs_find (Dir entries) (fst ne :: rel) = fs_find (snd ne) rel.
Proof.
  induction entries as [|[n0 c0] entries IH]; [intros _ []|].
  cbn [map fst names_differ]. intros Hnames Hin.
  apply andb_true_iff in Hnames as [Hn0 Hrest]. apply negb_true_iff in Hn0.
  rewrite fs_find_cons. destruct Hin as [<- | Hin].
  - cbn [fst snd]. now rewrite String.eqb_refl.
  - destruct (String.eqb n0 (fst ne)) eqn:Heq; [|now apply IH].
    exfalso. assert (Hex : existsb (String.eqb n0) (map fst entries) = true).
    { apply existsb_exists. exists (fst ne). split; [|exact Heq].
      now apply in_map. }
    rewrite Hex in Hn0. discriminate.
Qed.

Section Outside.

Variable discover_repository : string -> option string.
Variable Repository_new : string -> result Repository.

Local Abbreviation walk :=
  (_do_get_git_repos discover_repository Repository_new).

(** Every outside entry that discovery returns lies below the scanned
    directory. *)
Lemma outside_below (e : Entry) :
  forall dir repos outside f,
    walk dir e = Ok (repos, outside) ->
    In f outside ->
    exists rel, f = (dir ++ rel)%list.
Proof.
  induction e as [|entries IH|] using Entry_tree_ind;
    intros dir repos outside f; rewrite _do_get_git_repos_eq.
  - destruct (unprocessable dir); intros H; injection H as _ <-;
      [intros []|intros [<- | []]]. exists []. now rewrite app_nil_r.
  - destruct (unprocessable dir); [intros H; injection H as _ <-; intros []|].
    destruct (in_repository discover_repository dir).
    { destruct (Repository_new _); [|discriminate].
      intros H; injection H as _ <-; intros []. }
    destruct (map_result _ entries) as [results|] eqn:Hres; [|discriminate].
    apply map_result_Forall2 in Hres. cbn zeta.
    destruct (negb _); intros H; injection H as _ <-.
    + intros Hin. apply in_flatten in Hin as (sub & Hsub & Hf).
      apply in_map_iff in Hsub as ([rs os] & <- & Hres_in).
      destruct (Forall2_in_r _ _ _ Hres _ Hres_in) as (ne & Hne & Hwalk).
      rewrite Forall_forall in IH.
      destruct (IH ne Hne _ _ _ _ Hwalk Hf) as [rel ->].
      exists (fst ne :: rel). unfold joinpath. now rewrite <- app_assoc.
    + intros [<- | []]. exists []. now rewrite app_nil_r.
  - destruct (unprocessable dir);
      [intros H; injection H as _ <-; intros []|].
    destruct (in_repository discover_repository dir); [|discriminate].
    destruct (Repository_new _); [|discriminate].
    intros H; injection H as _ <-; intros [].
Qed.

(** X4: every outside entry that discovery returns is an entry of the tree
    that the guard does not skip: a file, or a directory for which the library
    finds no repository. *)
Theorem outside_entries_in_tree (e : Entry) :
  forall dir repos outside f,
    distinct_names e = true ->
    walk dir e = Ok (repos, outside) ->
    In f outside ->
    exists rel found,
      f = (dir ++ rel)%list /\
      fs_find e rel = Some found /\
      unprocessable f = false /\
      (found = File \/ in_repository discover_repository f = false).
Proof.
  induction e as [|entries IH|] using Entry_tree_ind;
    intros dir repos outside f Hnames; rewrite _do_get_git_repos_eq.
  - destruct (unprocessable dir) eqn:Hguard; intros H; injection H as _ <-;
      [intros []|intros [<- | []]].
    exists [], File. rewrite app_nil_r. repeat split; auto.
  - destruct (unprocessable dir) eqn:Hguard;
      [intros H; injection H as _ <-; intros []|].
    destruct (in_repository discover_repository dir) eqn:Hdir.
    { destruct (Repository_new _); [|discriminate].
      intros H; injection H as _ <-; intros []. }
    destruct (map_result _ entries) as [results|] eqn:Hres; [|discriminate].
    apply map_result_Forall2 in Hres. cbn zeta.
    cbn [distinct_names] in Hnames.
    apply andb_true_iff in Hnames as [Hdiffer Hbelow].
    destruct (negb _); intros H; injection H as _ <-.
    + intros Hin. apply in_flatten in Hin as (sub & Hsub & Hf).
      apply in_map_iff in Hsub as ([rs os] & <- & Hres_in).
      destruct (Forall2_in_r _ _ _ Hres _ Hres_in) as (ne & Hne & Hwalk).
      rewrite Forall_forall in IH. rewrite forallb_forall in Hbelow.
      destruct (IH ne Hne _ _ _ _ (Hbelow ne Hne) Hwalk Hf)
        as (rel & found & -> & Hfound & Hok & Hkind).
      exists (fst ne :: rel), found.
      rewrite (fs_find_entry entries ne rel Hdiffer Hne).
      unfold joinpath in *. rewrite <- app_assoc in *.
      repeat split; assumption.
    + intros [<- | []]. exists [], (Dir entries). rewrite app_nil_r.
      repeat split; auto.
  - destruct (unprocessable dir);
      [intros H; injection H as _ <-; intros []|].
    destruct (in_repository discover_repository dir); [|discriminate].
    destruct (Repository_new _); [|discriminate].
    intros H; injection H as _ <-; intros [].
Qed.

(** Printing the sorted outside entries: each one is relative to the scanned
    directory, so that nothing is raised. *)
Lemma print_outside (dir : Path) (e : Entry) (rels : list (list string)) :
  forall w,
    for_each
      (fun f =>
         (rel <- lift (relative_to f dir) ;;
          print ("OUTSIDE: " ++
                 (if match fs_find e rel with
                     | Some found => is_directory found
                     | None => false
                     end
                  then as_posix rel ++ "/" else as_posix rel)))%io)
      (map (app dir) rels) w
    = (Ok (map (fun _ => tt) rels),
       mkWorld (stdout w ++ map (outside_line e) rels)%list (stderr w)).
Proof.
  induction rels as [|rel rels IH]; intros w; cbn [map for_each].
  - unfold ret. rewrite app_nil_r. now destruct w.
  - unfold bind at 1 2, lift at 1. rewrite relative_to_app.
    unfold print at 1. unfold bind at 1. rewrite IH.
    cbn [stdout stderr]. unfold ret. rewrite <- app_assoc. reflexivity.
Qed.

Lemma below_rels (dir : Path) (l : list Path) :
  (forall f, In f l -> exists rel, f = (dir ++ rel)%list) ->
  exists rels, l = map (app dir) rels.
Proof.
  induction l as [|f l IH]; intros Hall.
  - now exists [].
  - destruct (Hall f (or_introl eq_refl)) as [rel ->].
    destruct IH as [rels ->]; [intros g Hg; apply Hall; now right|].
    now exists (rel :: rels).
Qed.

(** The run of [_get_git_repos] with the listing. *)
Lemma listing_run
    (dir : Path) (e : Entry) (repos : list Repository) (outside : list Path)
    (w : World) :
  walk dir e = Ok (repos, outside) ->
  exists rels,
    Permutation (map (app dir) rels) outside /\
    Sorted (in_order path_lt) (map (app dir) rels) /\
    _get_git_repos discover_repository Repository_new dir e true w
    = (Ok repos,
       mkWorld (stdout w ++ map (outside_line e) rels)%list (stderr w)).
Proof.
  intros Hwalk.
  destruct (below_rels dir (py_sort path_lt outside)) as [rels Hrels].
  { intros f Hf. apply (outside_below e dir repos outside f Hwalk).
    apply (Permutation_in f (py_sort_perm path_lt outside) Hf). }
  exists rels. rewrite <- Hrels. split; [apply py_sort_perm|].
  split; [apply py_sort_sorted; intros a b; apply path_lt_asym|].
  unfold _get_git_repos. unfold bind at 1, lift at 1. rewrite Hwalk.
  cbv zeta. unfold bind at 1 2. rewrite Hrels, print_outside.
  reflexivity.
Qed.

(** X6: [_get_git_repos]: without the listing nothing is printed; with it, one
    [OUTSIDE:] line per outside entry is printed, in the order of the paths,
    nothing is raised, and the same repositories are returned. *)
Theorem _get_git_repos_listing
    (dir : Path) (e : Entry) (repos : list Repository) (outside : list Path)
    (w : World) :
  walk dir e = Ok (repos, outside) ->
  _get_git_repos discover_repository Repository_new dir e false w
  = (Ok repos, w) /\
  exists rels,
    Permutation (map (app dir) rels) outside /\
    Sorted (in_order path_lt) (map (app dir) rels) /\
    _get_git_repos discover_repository Repository_new dir e true w
    = (Ok repos,
       mkWorld (stdout w ++ map (outside_line e) rels)%list (stderr w)).
Proof.
  intros Hwalk. split.
  - unfold _get_git_repos, bind, lift, ret. now rewrite Hwalk.
  - now apply listing_run.
Qed.

End Outside.

Lemma outside_entries_in_tree_witness :
  exists rel found,
    ["work"; "notes"] = (["work"] ++ rel)%list /\
    fs_find mixed_tree rel = Some found /\
    unprocessable ["work"; "notes"] = false /\
    (found = File \/
     in_repository two_repos_discovery ["work"; "notes"] = false).
Proof.
  apply (outside_entries_in_tree two_repos_discovery sample_constructor
           mixed_tree ["work"]
           (map (fun s => mkRepository s false false 7%N "main"
                            (fun _ => None) [] [] (fun _ _ => (0, 0)%N))
                ["/work/app/.git/"; "/work/lib/.git/"])
           [["work"; "notes"]; ["work"; "zz.txt"]]).
  - reflexivity.
  - reflexivity.
  - left. reflexivity.
Defined.

Lemma _get_git_repos_listing_witness :
  _get_git_repos no_discovery no_constructor ["home"; "notes"]
    (Dir [("todo.txt", File)]) false empty_world
  = (Ok [], empty_world) /\
  exists rels,
    Permutation (map (app ["home"; "notes"]) rels) [["home"; "notes"]] /\
    Sorted (in_order path_lt) (map (app ["home"; "notes"]) rels) /\
    _get_git_repos no_discovery no_constructor ["home"; "notes"]
      (Dir [("todo.txt", File)]) true empty_world
    = (Ok [],
       mkWorld
         (stdout empty_world
          ++ map (outside_line (Dir [("todo.txt", File)])) rels)%list
         (stderr empty_world)).
Proof.
  apply (_get_git_repos_listing no_discovery no_constructor ["home"; "notes"]
           (Dir [("todo.txt", File)]) [] [["home"; "notes"]] empty_world).
  reflexivity.
Defined.

(** ** The name of a repository *)

Lemma append_nil_r (s : string) : s ++ "" = s.
Proof. induction s as [|c s IH]; cbn; [reflexivity|now rewrite IH]. Qed.

Lemma no_slash_cons (c : ascii) (a : string) :
  PyStr.contains "/" (String c a) = false ->
  Ascii.eqb c "/" = false /\ PyStr.contains "/" a = false.
Proof.
  cbn [PyStr.contains PyStr.startswith]. intros H.
  apply orb_false_iff in H as [Hc Ha]. rewrite andb_true_r in Hc.
  split; [now rewrite Ascii.eqb_sym|exact Ha].
Qed.

(** Splitting at the first [/] after a component without one. *)
Lemma split_slash_component (a : string) :
  forall cur rest,
    PyStr.contains "/" a = false ->
    split_slash cur (a ++ "/" ++ rest) = (cur ++ a) :: split_slash "" rest.
Proof.
  induction a as [|c a IH]; intros cur rest Hno.
  - cbn. now rewrite append_nil_r.
  - apply no_slash_cons in Hno as [Hc Ha].
    change (String c a ++ "/" ++ rest) with (String c (a ++ "/" ++ rest)).
    cbn [split_slash]. rewrite Hc, (IH _ _ Ha), append_assoc. reflexivity.
Qed.

Lemma valid_path_no_slash (a : string) :
  valid_name a = true -> PyStr.contains "/" a = false.
Proof.
  unfold valid_name. intros H. apply andb_true_iff in H as [_ H].
  now apply negb_true_iff in H.
Qed.

(** Splitting the components of a path joined with [/], before a rest. *)
Lemma split_slash_join (p : Path) :
  forall rest,
    p <> [] -> valid_path p = true ->
    split_slash "" (PyStr.join "/" p ++ "/" ++ rest)
    = (p ++ split_slash "" rest)%list.
Proof.
  induction p as [|a p IH]; intros rest Hne Hvalid; [contradiction|].
  cbn [valid_path forallb] in Hvalid.
  apply andb_true_iff in Hvalid as [Ha Hp].
  destruct p as [|b p].
  - cbn [PyStr.join]. rewrite split_slash_component
      by now apply valid_path_no_slash.
    reflexivity.
  - change (PyStr.join "/" (a :: b :: p))
      with (a ++ "/" ++ PyStr.join "/" (b :: p)).
    rewrite !append_assoc.
    rewrite split_slash_component by now apply valid_path_no_slash.
    rewrite (IH rest ltac:(discriminate) Hp). reflexivity.
Qed.

Lemma proper_path_valid (p : Path) :
  proper_path p = true -> valid_path p = true.
Proof.
  unfold proper_path, valid_path, proper_name. intros H.
  apply forallb_forall. intros n Hn. rewrite forallb_forall in H.
  specialize (H n Hn). now apply andb_true_iff in H as [H _].
Qed.

Lemma proper_path_kept (p : Path) :
  proper_path p = true ->
  filter (fun c => negb (String.eqb c "" || String.eqb c ".")) p = p.
Proof.
  induction p as [|a p IH]; [reflexivity|].
  cbn [proper_path forallb filter]. intros H.
  apply andb_true_iff in H as [Ha Hp].
  unfold proper_name, valid_name in Ha.
  apply andb_true_iff in Ha as [Ha Hdot].
  apply andb_true_iff in Ha as [Hempty _].
  apply negb_true_iff in Hempty, Hdot. rewrite Hempty, Hdot. cbn.
  now rewrite (IH Hp).
Qed.

(** The path of a repository as the library gives it, with the final [/],
    is parsed back to its components. *)
Lemma Path_of_str_str_Path (p : Path) :
  proper_path p = true -> Path_of_str (str_Path p ++ "/") = p.
Proof.
  intros Hp. unfold Path_of_str, str_Path.
  destruct p as [|a p]; [reflexivity|].
  rewrite append_assoc.
  change ("/" ++ PyStr.join "/" (a :: p) ++ "/")
    with (String "/" (PyStr.join "/" (a :: p) ++ "/" ++ "")).
  cbn [split_slash]. change (Ascii.eqb "/" "/") with true. cbv iota.
  rewrite split_slash_join;
    [|discriminate|now apply proper_path_valid].
  cbn [split_slash].
  set (kept := fun c => negb (String.eqb c "" || String.eqb c ".")).
  change (filter kept ("" :: (a :: p) ++ [""])%list)
    with (filter kept ((a :: p) ++ [""])%list).
  rewrite filter_app. unfold kept at 1. rewrite (proper_path_kept _ Hp).
  apply app_nil_r.
Qed.

Lemma match_dot_git_last (p : Path) : match_dot_git (p ++ [".git"])%list = true.
Proof. unfold match_dot_git. now rewrite rev_unit. Qed.

Lemma relative_to_above (p : Path) (c : string) (rest : list string) :
  relative_to p (p ++ c :: rest)%list = Raise ValueError.
Proof.
  induction p as [|a p IH]; [reflexivity|].
  cbn [app relative_to]. now rewrite String.eqb_refl.
Qed.

Lemma proper_path_app (p q : Path) :
  proper_path p = true -> proper_path q = true ->
  proper_path (p ++ q)%list = true.
Proof.
  unfold proper_path. intros Hp Hq. now rewrite forallb_app, Hp, Hq.
Qed.

(** X7: the name of a repository below the working directory is its path
    relative to it, without the [.git] component; [.] for the working
    directory itself. *)
Theorem _get_repo_name_below
    (repo : Repository) (working_dir : Path) (rel : list string) :
  proper_path working_dir = true ->
  proper_path rel = true ->
  path repo = str_Path (working_dir ++ rel ++ [".git"])%list ++ "/" ->
  _get_repo_name repo working_dir = Ok (as_posix rel).
Proof.
  intros Hwd Hrel Hpath. unfold _get_repo_name. rewrite Hpath.
  rewrite Path_of_str_str_Path
    by (repeat apply proper_path_app; auto).
  rewrite app_assoc, match_dot_git_last. unfold parent.
  rewrite removelast_last, relative_to_app. reflexivity.
Qed.

(** X8: a repository whose directory is above the working directory has no
    name: [relative_to] raises [ValueError]. *)
Theorem _get_repo_name_above
    (repo : Repository) (above : Path) (c : string) (rest : list string) :
  proper_path above = true ->
  path repo = str_Path (above ++ [".git"])%list ++ "/" ->
  _get_repo_name repo (above ++ c :: rest)%list = Raise ValueError.
Proof.
  intros Habove Hpath. unfold _get_repo_name. rewrite Hpath.
  rewrite Path_of_str_str_Path by (apply proper_path_app; auto).
  rewrite match_dot_git_last. unfold parent.
  rewrite removelast_last, relative_to_above. reflexivity.
Qed.

Lemma _get_repo_name_below_witness :
  _get_repo_name repo_offline ["work"] = Ok (as_posix ["app"]).
Proof.
  apply (_get_repo_name_below repo_offline ["work"] ["app"]); reflexivity.
Defined.

Lemma _get_repo_name_above_witness :
  _get_repo_name repo_offline (["work"; "app"] ++ "src" :: [])%list
  = Raise ValueError.
Proof.
  apply (_get_repo_name_above repo_offline ["work"; "app"] "src" []);
    reflexivity.
Defined.

(** ** Status derivation, continued *)

(** X9: [_get_status] never writes to standard output, and to standard error
    at most the warning of a failed fetch; without fetch it writes nothing. *)
Theorem _get_status_writes
    (repo : Repository) (name : string) (fetch : bool) (w : World) :
  wrote_at_most_warning name w (snd (_get_status repo name fetch w)) /\
  (fetch = false -> snd (_get_status repo name fetch w) = w).
Proof.
  split.
  - unfold wrote_at_most_warning, fetch_warning, _get_status. run_io.
    generalize (hex (head_target repo)); intros hx.
    destruct (head_is_unborn repo); [cbn; auto|].
    destruct (head_is_detached repo); [cbn; auto|].
    destruct (lookup_branch repo (head_shorthand repo)) as [lb|]; [|cbn; auto].
    destruct (upstream lb) as [ub|]; [|cbn; auto].
    destruct (ahead_behind repo (target lb) (upstream_target ub)) as [a b].
    destruct fetch; [|cbn; auto].
    destruct (remotes_getitem (remotes repo) (remote_name ub)) as [rm|];
      [|cbn; auto].
    destruct (fetch_outcome rm) as [u|[]]; cbn; auto.
  - intros ->. now rewrite _get_status_no_fetch.
Qed.

(** X10: an exception of the fetch other than [GitError] is not caught: it
    ends [_get_status], and nothing is written. *)
Theorem _get_status_fetch_error_propagates
    (repo : Repository) (name : string) (w : World)
    (local_branch : Branch) (upstream_branch : Upstream) (remote : Remote)
    (x : exn) :
  head_is_unborn repo = false ->
  head_is_detached repo = false ->
  lookup_branch repo (head_shorthand repo) = Some local_branch ->
  upstream local_branch = Some upstream_branch ->
  remotes_getitem (remotes repo) (remote_name upstream_branch) = Ok remote ->
  fetch_outcome remote = Raise x ->
  x <> GitError ->
  _get_status repo name true w = (Raise x, w).
Proof.
  intros Hunborn Hdetached Hbranch Hupstream Hremote Hfetch Hx.
  unfold _get_status. run_io.
  rewrite Hunborn, Hdetached, Hbranch, Hupstream, Hremote, Hfetch.
  destruct x; try reflexivity. contradiction.
Qed.

(** X11: when the upstream of the branch is a local branch, so that reading
    its [remote_name] raises, [_get_status] with fetch ends with that
    exception before any fetch, although it returns a record without
    fetch. *)
Theorem _get_status_local_upstream
    (repo : Repository) (name : string) (w : World)
    (local_branch : Branch) (upstream_branch : Upstream) (x : exn) :
  head_is_unborn repo = false ->
  head_is_detached repo = false ->
  lookup_branch repo (head_shorthand repo) = Some local_branch ->
  upstream local_branch = Some upstream_branch ->
  remote_name upstream_branch = Raise x ->
  _get_status repo name true w = (Raise x, w) /\
  exists s,
    _get_status repo name false w = (Ok s, w) /\
    branch_has_upstream s = true.
Proof.
  intros Hunborn Hdetached Hbranch Hupstream Hname.
  unfold _get_status. run_io.
  rewrite Hunborn, Hdetached, Hbranch, Hupstream, Hname.
  cbn [remotes_getitem]. split; [reflexivity|].
  destruct (ahead_behind repo (target local_branch)
              (upstream_target upstream_branch)) as [a b].
  eexists. split; reflexivity.
Qed.

(** A branch that [lookup_branch] does not find ends [_get_status] with
    [AttributeError]. *)
Theorem _get_status_unknown_branch
    (repo : Repository) (name : string) (fetch : bool) (w : World) :
  head_is_unborn repo = false ->
  head_is_detached repo = false ->
  lookup_branch repo (head_shorthand repo) = None ->
  _get_status repo name fetch w = (Raise AttributeError, w).
Proof.
  intros Hunborn Hdetached Hbranch. unfold _get_status. run_io.
  now rewrite Hunborn, Hdetached, Hbranch.
Qed.

(** X12: the record carries the given name; it is local exactly when the
    repository has no remote, and has changes exactly when the status of the
    working tree is not empty. *)
Theorem _get_status_fields
    (repo : Repository) (name0 : string) (fetch : bool) (w w' : World)
    (s : RepoStatus) :
  _get_status repo name0 fetch w = (Ok s, w') ->
  name s = name0 /\
  (is_local s = true <-> remotes repo = []) /\
  (has_changes s = true <-> status repo <> []).
Proof.
  assert (Hlocal : negb (0 <? List.length (remotes repo))%nat = true
                   <-> remotes repo = []).
  { destruct (remotes repo); cbn; split; intros; congruence. }
  assert (Hchanges : (0 <? List.length (status repo))%nat = true
                     <-> status repo <> []).
  { destruct (status repo); cbn; split; intros; congruence. }
  unfold _get_status. run_io.
  generalize (hex (head_target repo)); intros hx.
  assert (Hrec : forall (b : string) (u : bool) (x y : Z) (w1 : World),
             (Ok (mkRepoStatus name0 b
                    (negb (0 <? List.length (remotes repo))%nat)
                    (0 <? List.length (status repo))%nat u x y), w1)
             = (Ok s, w') ->
             name s = name0 /\
             (is_local s = true <-> remotes repo = []) /\
             (has_changes s = true <-> status repo <> [])).
  { intros b u x y w1 H. injection H as <- _. cbn. auto. }
  destruct (head_is_unborn repo); [apply Hrec|].
  destruct (head_is_detached repo); [apply Hrec|].
  destruct (lookup_branch repo (head_shorthand repo)) as [lb|];
    [|discriminate].
  destruct (upstream lb) as [ub|]; [|apply Hrec].
  destruct (ahead_behind repo (target lb) (upstream_target ub)) as [a b].
  destruct fetch; [|apply Hrec].
  destruct (remotes_getitem (remotes repo) (remote_name ub)) as [rm|];
    [|discriminate].
  destruct (fetch_outcome rm) as [u|[]]; try discriminate; apply Hrec.
Qed.

Lemma _get_status_fetch_error_propagates_witness :
  _get_status repo_bad_fetch "app" true empty_world
  = (Raise KeyError, empty_world).
Proof.
  apply (_get_status_fetch_error_propagates repo_bad_fetch "app" empty_world
           (mkBranch 7%N (Some (mkUpstream (Ok "origin") 5%N)))
           (mkUpstream (Ok "origin") 5%N) (mkRemote (Raise KeyError)) KeyError);
    try reflexivity.
  discriminate.
Defined.

Lemma _get_status_local_upstream_witness :
  _get_status repo_local_upstream "app" true empty_world
  = (Raise ValueError, empty_world) /\
  exists s,
    _get_status repo_local_upstream "app" false empty_world
    = (Ok s, empty_world) /\
    branch_has_upstream s = true.
Proof.
  apply (_get_status_local_upstream repo_local_upstream "app" empty_world
           (mkBranch 7%N (Some (mkUpstream (Raise ValueError) 5%N)))
           (mkUpstream (Raise ValueError) 5%N) ValueError); reflexivity.
Defined.

Lemma _get_status_unknown_branch_witness :
  _get_status repo_no_branch "app" false empty_world
  = (Raise AttributeError, empty_world).
Proof.
  apply (_get_status_unknown_branch repo_no_branch "app" false empty_world);
    reflexivity.
Defined.

Lemma _get_status_fields_witness :
  name (mkRepoStatus "app" "main" false false true 2 1) = "app" /\
  (is_local (mkRepoStatus "app" "main" false false true 2 1) = true
   <-> remotes repo_offline = []) /\
  (has_changes (mkRepoStatus "app" "main" false false true 2 1) = true
   <-> status repo_offline <> []).
Proof.
  apply (_get_status_fields repo_offline "app" false empty_world empty_world).
  reflexivity.
Defined.

(** ** The summary *)

Lemma for_each_print {A} (line : A -> string) (l : list A) :
  forall w,
    for_each (fun a => print (line a)) l w
    = (Ok (map (fun _ => tt) l),
       mkWorld (stdout w ++ map line l)%list (stderr w)).
Proof.
  induction l as [|a l IH]; intros w; cbn [for_each map].
  - unfold ret. rewrite app_nil_r. now destruct w.
  - unfold bind at 1, print at 1. unfold bind at 1. rewrite IH.
    cbn [stdout stderr]. unfold ret. now rewrite <- app_assoc.
Qed.

Lemma for_each_length {A B} (f : A -> IO B) (l : list A) :
  forall w ys w',
    for_each f l w = (Ok ys, w') -> List.length ys = List.length l.
Proof.
  induction l as [|a l IH]; intros w ys w'; cbn [for_each].
  - unfold ret. intros H. now injection H as <- _.
  - unfold bind at 1. destruct (f a w) as [[y|x] w1]; [|discriminate].
    unfold bind at 1.
    destruct (for_each f l w1) as [[ys'|x] w2] eqn:Hrest; [|discriminate].
    unfold ret. intros H. injection H as <- _. cbn [List.length].
    now rewrite (IH _ _ _ Hrest).
Qed.

Lemma py_max_nonempty (l : list nat) :
  l <> [] -> exists m, py_max l = Ok m.
Proof. destruct l; [contradiction|]. intros _. eexists. reflexivity. Qed.

Section Summary.

Variable discover_repository : string -> option string.
Variable Repository_new : string -> result Repository.

Local Abbreviation walk :=
  (_do_get_git_repos discover_repository Repository_new).
Local Abbreviation summary :=
  (_get_git_summary discover_repository Repository_new).

(** X13: with [only_outside_files] the summary prints the [OUTSIDE:] lines and
    nothing else: no count, no table, nothing on standard error, and no status
    is derived, whatever the other flags. *)
Theorem summary_only_outside
    (cwd : Path) (fs : Entry) (fetch list_outside_files : bool) (w : World)
    (repos : list Repository) (outside : list Path) :
  walk cwd fs = Ok (repos, outside) ->
  exists rels,
    Permutation (map (app cwd) rels) outside /\
    Sorted (in_order path_lt) (map (app cwd) rels) /\
    summary cwd fs fetch list_outside_files true w
    = (Ok tt, mkWorld (stdout w ++ map (outside_line fs) rels)%list
                (stderr w)).
Proof.
  intros Hwalk.
  destruct (listing_run discover_repository Repository_new cwd fs repos
              outside w Hwalk) as (rels & Hperm & Hsorted & Hrun).
  exists rels. split; [exact Hperm|]. split; [exact Hsorted|].
  unfold _get_git_summary. rewrite orb_true_r. unfold bind at 1.
  rewrite Hrun. reflexivity.
Qed.

(** X14: when repositories are found and their statuses derived, the summary
    prints the count and then one line per repository, in the order of the
    names, rendered with the maximal widths. *)
Theorem summary_table
    (cwd : Path) (fs : Entry) (fetch : bool) (w w2 : World)
    (repos : list Repository) (outside : list Path)
    (statuses : list RepoStatus) :
  walk cwd fs = Ok (repos, outside) ->
  repos <> [] ->
  statuses_of cwd fetch repos
    (mkWorld (stdout w ++
              [("Found " ++ PyStr.str_of_int (Z.of_nat (List.length repos))
                ++ " Git repositories.")%string])%list (stderr w))
  = (Ok statuses, w2) ->
  exists name_width head_width sorted,
    py_max (map (fun s => PyStr.len (name s)) statuses) = Ok name_width /\
    py_max (map (fun s => PyStr.len (head s)) statuses) = Ok head_width /\
    Permutation sorted statuses /\
    Sorted (in_order (fun a b => String.ltb (name a) (name b))) sorted /\
    List.length sorted = List.length repos /\
    summary cwd fs fetch false false w
    = (Ok tt,
       mkWorld (stdout w2 ++
                map (fun s => to_string s name_width head_width) sorted)%list
         (stderr w2)).
Proof.
  intros Hwalk Hrepos Hstatuses.
  pose proof (for_each_length _ _ _ _ _ Hstatuses) as Hlen.
  assert (Hne : statuses <> []).
  { intros ->. destruct repos; [contradiction|discriminate]. }
  destruct (py_max_nonempty (map (fun s => PyStr.len (name s)) statuses))
    as [nw Hnw]; [destruct statuses; [contradiction|discriminate]|].
  destruct (py_max_nonempty (map (fun s => PyStr.len (head s)) statuses))
    as [hw Hhw]; [destruct statuses; [contradiction|discriminate]|].
  exists nw, hw,
    (py_sort (fun a b => String.ltb (name a) (name b)) statuses).
  split; [exact Hnw|]. split; [exact Hhw|].
  split; [apply py_sort_perm|].
  split; [apply py_sort_sorted; intros a b; apply name_lt_asym|].
  split.
  { rewrite <- Hlen. apply Permutation_length, py_sort_perm. }
  unfold _get_git_summary. cbn [orb negb]. unfold bind at 1.
  unfold _get_git_repos, bind at 1 2, lift at 1, ret. rewrite Hwalk.
  cbv iota beta. unfold bind at 1, print at 1. unfold bind at 1.
  fold (statuses_of cwd fetch repos). rewrite Hstatuses.
  unfold bind at 1, lift at 1. rewrite Hnw.
  unfold bind at 1, lift at 1. rewrite Hhw.
  unfold bind at 1. rewrite for_each_print. reflexivity.
Qed.

(** X15: run in a directory below the root of a repository, the summary prints
    the count of one repository and ends with [ValueError]: the repository
    that the library finds above has no path relative to the working
    directory. *)
Theorem summary_inside_repository
    (above : Path) (c : string) (rest : list string)
    (entries : list (string * Entry)) (repo : Repository)
    (fetch : bool) (w : World) :
  proper_path above = true ->
  unprocessable (above ++ c :: rest)%list = false ->
  discover_repository (str_Path (above ++ c :: rest)%list)
  = Some (str_Path (above ++ [".git"])%list ++ "/") ->
  Repository_new (str_Path (above ++ [".git"])%list ++ "/") = Ok repo ->
  path repo = str_Path (above ++ [".git"])%list ++ "/" ->
  summary (above ++ c :: rest)%list (Dir entries) fetch false false w
  = (Raise ValueError,
     mkWorld (stdout w ++ ["Found 1 Git repositories."])%list (stderr w)).
Proof.
  intros Habove Hguard Hdiscover Hnew Hpath.
  assert (Hwalk : walk (above ++ c :: rest)%list (Dir entries)
                  = Ok ([repo], [])).
  { rewrite _do_get_git_repos_eq, Hguard. unfold in_repository.
    rewrite Hdiscover. cbn [truthy]. unfold str_Path at 1.
    change ((("/" ++ PyStr.join "/" (above ++ [".git"])%list) ++ "/" =? "")%string)
      with false.
    cbn [negb]. now rewrite Hnew. }
  unfold _get_git_summary. cbn [orb negb]. unfold bind at 1.
  unfold _get_git_repos, bind at 1 2, lift at 1, ret. rewrite Hwalk.
  cbv iota beta. unfold bind at 1, print at 1. unfold bind at 1.
  unfold statuses_of. cbn [for_each]. unfold bind at 1 2, lift at 1.
  assert (Hname : _get_repo_name repo (above ++ c :: rest)%list
                  = Raise ValueError).
  { unfold _get_repo_name. rewrite Hpath.
    rewrite Path_of_str_str_Path by (apply proper_path_app; auto).
    rewrite match_dot_git_last. unfold parent.
    now rewrite removelast_last, relative_to_above. }
  rewrite Hname. reflexivity.
Qed.

End Summary.

Lemma summary_only_outside_witness :
  exists rels,
    Permutation (map (app ["work"]) rels)
      [["work"; "notes"]; ["work"; "zz.txt"]] /\
    Sorted (in_order path_lt) (map (app ["work"]) rels) /\
    _get_git_summary two_repos_discovery mixed_constructor ["work"]
      mixed_tree true false true empty_world
    = (Ok tt,
       mkWorld (stdout empty_world ++ map (outside_line mixed_tree) rels)%list
         (stderr empty_world)).
Proof.
  apply (summary_only_outside two_repos_discovery mixed_constructor ["work"]
           mixed_tree true false empty_world [app_repo; lib_repo]).
  reflexivity.
Defined.

Lemma summary_table_witness :
  exists name_width head_width sorted,
    py_max (map (fun s => PyStr.len (name s))
              [mkRepoStatus "app" "main" false true true 12 1;
               mkRepoStatus "lib" "(a1b2c3)" true false false 0 0])
    = Ok name_width /\
    py_max (map (fun s => PyStr.len (head s))
              [mkRepoStatus "app" "main" false true true 12 1;
               mkRepoStatus "lib" "(a1b2c3)" true false false 0 0])
    = Ok head_width /\
    Permutation sorted
      [mkRepoStatus "app" "main" false true true 12 1;
       mkRepoStatus "lib" "(a1b2c3)" true false false 0 0] /\
    Sorted (in_order (fun a b => String.ltb (name a) (name b))) sorted /\
    List.length sorted = List.length [app_repo; lib_repo] /\
    _get_git_summary two_repos_discovery mixed_constructor ["work"]
      mixed_tree false false false empty_world
    = (Ok tt,
       mkWorld (["Found 2 Git repositories."] ++
                map (fun s => to_string s name_width head_width) sorted)%list
         []).
Proof.
  apply (summary_table two_repos_discovery mixed_constructor ["work"]
           mixed_tree false empty_world
           (mkWorld ["Found 2 Git repositories."] [])
           [app_repo; lib_repo] [["work"; "notes"]; ["work"; "zz.txt"]]).
  - reflexivity.
  - discriminate.
  - vm_compute. reflexivity.
Defined.

Lemma summary_inside_repository_witness :
  _get_git_summary two_repos_discovery sample_constructor
    (["work"; "app"] ++ "src" :: [])%list (Dir [("x.py", File)])
    false false false empty_world
  = (Raise ValueError,
     mkWorld (stdout empty_world ++ ["Found 1 Git repositories."])%list
       (stderr empty_world)).
Proof.
  apply (summary_inside_repository two_repos_discovery sample_constructor
           ["work"; "app"] "src" [] [("x.py", File)]
           (mkRepository "/work/app/.git/" false false 7%N "main"
              (fun _ => None) [] [] (fun _ _ => (0, 0)%N)));
    reflexivity.
Defined.

(** ** The rendered line, continued *)

Lemma len_str_of_int_pos (z : Z) :
  (0 < z)%Z -> 1 <= PyStr.len (PyStr.str_of_int z).
Proof.
  destruct z as [|p|p]; try lia. intros _.
  unfold PyStr.str_of_int. cbn [Z.to_int NilZero.string_of_int].
  pose proof (DecimalPos.Unsigned.to_uint_nonnil p) as Hnil.
  unfold NilZero.string_of_uint.
  destruct (Pos.to_uint p); [contradiction|..];
    cbn [NilEmpty.string_of_uint PyStr.len String.length]; lia.
Qed.

Lemma len_count_field_min (mark : string) (z : Z) :
  PyStr.len mark = 2 ->
  3 <= PyStr.len (if (z >? 0)%Z then mark ++ PyStr.str_of_int z else "   ").
Proof.
  intros Hmark. destruct (z >? 0)%Z eqn:Hpos.
  - rewrite len_app, Hmark.
    pose proof (len_str_of_int_pos z ltac:(lia)). lia.
  - cbn. lia.
Qed.

(** X16: a rendered line begins with [!] exactly when the record is not up to
    date. *)
Theorem to_string_marker (s : RepoStatus) (name_width head_width : nat) :
  PyStr.startswith "!" (to_string s name_width head_width)
  = negb (is_up_to_date s).
Proof.
  unfold to_string. destruct (negb (is_up_to_date s)); reflexivity.
Qed.

(** X17: padding never truncates: a rendered line has at least the two column
    widths, the lengths of name and head, and twenty more characters. *)
Theorem to_string_min_length (s : RepoStatus) (name_width head_width : nat) :
  Nat.max (PyStr.len (name s)) name_width
  + Nat.max (PyStr.len (head s)) head_width + 20
  <= PyStr.len (to_string s name_width head_width).
Proof.
  unfold to_string. rewrite !len_app, !len_ljust.
  pose proof (len_count_field_min " >" (local_ahead s) eq_refl) as Ha.
  pose proof (len_count_field_min " <" (local_behind s) eq_refl) as Hb.
  destruct (negb (is_up_to_date s)), (is_local s),
    (negb (branch_has_upstream s)), (has_changes s);
    cbn [PyStr.len String.length] in *; lia.
Qed.

(** ** The older variant, continued *)

Lemma str_drop_app (a b : string) : str_drop (PyStr.len a) (a ++ b) = b.
Proof. induction a as [|c a IH]; [now destruct b|exact IH]. Qed.

Lemma take_app (a b : string) : PyStr.take (PyStr.len a) (a ++ b) = a.
Proof.
  induction a as [|c a IH]; [now destruct b|].
  cbn. unfold PyStr.len in IH. now rewrite IH.
Qed.

(** A repository in the working directory itself is named [.]. *)
Lemma _truncate_path_here (cwd : string) :
  Old._truncate_path cwd (cwd ++ "/.git/") = ".".
Proof.
  unfold Old._truncate_path, str_slice. rewrite len_app.
  replace (PyStr.len cwd + PyStr.len "/.git/" - 6 - (PyStr.len cwd + 1))
    with 0 by (cbn; lia).
  now destruct (str_drop _ _).
Qed.

(** A repository in the directory [rel] below the working directory is
    named [rel]. *)
Lemma _truncate_path_below (cwd rel : string) :
  rel <> "" ->
  Old._truncate_path cwd (cwd ++ "/" ++ rel ++ "/.git/") = rel.
Proof.
  intros Hrel. unfold Old._truncate_path, str_slice.
  rewrite <- (append_assoc cwd "/").
  replace (PyStr.len cwd + 1) with (PyStr.len (cwd ++ "/"))
    by (rewrite len_app; reflexivity).
  rewrite str_drop_app.
  replace (PyStr.len ((cwd ++ "/") ++ rel ++ "/.git/") - 6
           - PyStr.len (cwd ++ "/"))
    with (PyStr.len rel) by (rewrite !len_app; cbn; lia).
  rewrite take_app. apply String.eqb_neq in Hrel. now rewrite Hrel.
Qed.

(** X18: [_truncate_path] cuts the working directory and the final [/.git/]
    off the path of a repository: what is left is the directory of the
    repository relative to the working directory, or [.] for the working
    directory itself. *)
Theorem _truncate_path_relative (cwd rel : string) :
  Old._truncate_path cwd (cwd ++ "/.git/") = "." /\
  (rel <> "" ->
   Old._truncate_path cwd (cwd ++ "/" ++ rel ++ "/.git/") = rel).
Proof.
  split; [apply _truncate_path_here|apply _truncate_path_below].
Qed.

(** X19: in the root directory, where [os.getcwd()] is [/], [_truncate_path]
    also cuts the first character of the name. *)
Theorem _truncate_path_at_root (c : ascii) (rel : string) :
  Old._truncate_path "/" ("/" ++ String c rel ++ "/.git/")
  = if String.eqb rel "" then "." else rel.
Proof.
  unfold Old._truncate_path, str_slice.
  change (PyStr.len "/" + 1) with 2.
  change (str_drop 2 ("/" ++ String c rel ++ "/.git/"))
    with (rel ++ "/.git/").
  replace (PyStr.len ("/" ++ String c rel ++ "/.git/") - 6 - 2)
    with (PyStr.len rel).
  - now rewrite take_app.
  - change ("/" ++ String c rel ++ "/.git/")
      with (String "/" (String c (rel ++ "/.git/"))).
    unfold PyStr.len. cbn [String.length].
    change (String.length (rel ++ "/.git/"))
      with (PyStr.len (rel ++ "/.git/")).
    rewrite len_app. cbn. unfold PyStr.len. lia.
Qed.

Lemma _truncate_path_relative_witness :
  Old._truncate_path "/work" ("/work" ++ "/.git/") = "." /\
  ("tools/app" <> "" ->
   Old._truncate_path "/work" ("/work" ++ "/" ++ "tools/app" ++ "/.git/")
   = "tools/app").
Proof.
  apply (_truncate_path_relative "/work" "tools/app").
Defined.

Lemma join_app (sep : string) (p q : list string) :
  p <> [] -> q <> [] ->
  PyStr.join sep (p ++ q)%list = PyStr.join sep p ++ sep ++ PyStr.join sep q.
Proof.
  intros Hp Hq. induction p as [|a p IH]; [contradiction|].
  destruct q as [|b q]; [contradiction|].
  destruct p as [|a' p].
  - reflexivity.
  - change (PyStr.join sep ((a :: a' :: p) ++ b :: q)%list)
      with (a ++ sep ++ PyStr.join sep ((a' :: p) ++ b :: q)%list).
    rewrite IH by discriminate.
    change (PyStr.join sep (a :: a' :: p))
      with (a ++ sep ++ PyStr.join sep (a' :: p)).
    now rewrite !append_assoc.
Qed.

(** The path that the library gives for the repository in [rel] below
    [cwd]. *)
Lemma repository_path_shape (cwd rel : Path) :
  cwd <> [] ->
  str_Path (cwd ++ rel ++ [".git"])%list ++ "/"
  = match rel with
    | [] => str_Path cwd ++ "/.git/"
    | _ => str_Path cwd ++ "/" ++ PyStr.join "/" rel ++ "/.git/"
    end.
Proof.
  intros Hcwd. unfold str_Path. destruct rel as [|r rel].
  - cbn [app]. rewrite join_snoc. destruct cwd as [|a cwd]; [contradiction|].
    now rewrite !append_assoc.
  - rewrite app_assoc, join_snoc.
    destruct (cwd ++ r :: rel)%list as [|x l] eqn:Happ.
    { destruct cwd; discriminate. }
    rewrite <- Happ, join_app by (assumption || discriminate).
    now rewrite !append_assoc.
Qed.

(** X20: for a repository below the working directory, the older
    [_truncate_path] and the newer [_get_repo_name] give the same name. *)
Theorem repo_names_agree (repo : Repository) (cwd rel : Path) :
  cwd <> [] ->
  proper_path cwd = true ->
  proper_path rel = true ->
  path repo = str_Path (cwd ++ rel ++ [".git"])%list ++ "/" ->
  _get_repo_name repo cwd
  = Ok (Old._truncate_path (str_Path cwd) (path repo)).
Proof.
  intros Hne Hcwd Hrel Hpath.
  assert (Hnew : _get_repo_name repo cwd = Ok (as_posix rel)).
  { unfold _get_repo_name. rewrite Hpath.
    rewrite Path_of_str_str_Path by (repeat apply proper_path_app; auto).
    rewrite app_assoc, match_dot_git_last. unfold parent.
    now rewrite removelast_last, relative_to_app. }
  rewrite Hnew, Hpath, (repository_path_shape cwd rel Hne). f_equal.
  destruct rel as [|r rel].
  - now rewrite _truncate_path_here.
  - rewrite _truncate_path_below; [reflexivity|].
    apply (join_valid (r :: rel)); [discriminate|].
    now apply proper_path_valid.
Qed.

Lemma repo_names_agree_witness :
  _get_repo_name repo_offline ["work"]
  = Ok (Old._truncate_path (str_Path ["work"]) (path repo_offline)).
Proof.
  apply (repo_names_agree repo_offline ["work"] ["app"]);
    try reflexivity.
  discriminate.
Defined.

Lemma for_each_lift {A B} (g : A -> result B) (l : list A) (w : World) :
  for_each (fun a => lift (g a)) l w = (map_result g l, w).
Proof.
  induction l as [|a l IH]; cbn [for_each map_result]; [reflexivity|].
  fold (map_result g). unfold bind at 1, lift at 1.
  destruct (g a) as [y|x]; [|reflexivity].
  unfold bind at 1. rewrite IH.
  destruct (map_result g l); reflexivity.
Qed.

Lemma map_result_length {A B} (g : A -> result B) (l : list A) :
  forall ys, map_result g l = Ok ys -> List.length ys = List.length l.
Proof.
  intros ys H. apply map_result_Forall2 in H.
  symmetry. now apply (Forall2_length H).
Qed.

Section OldMain.

Variable discover_repository : string -> option string.
Variable Repository_new : string -> result Repository.

Local Abbreviation old_repos :=
  (Old._get_git_repos discover_repository Repository_new).
Local Abbreviation old_main :=
  (Old.main discover_repository Repository_new).

(** X21: the older [main] has the defect of the newer summary: with no
    repository it prints the count and ends with [ValueError]. *)
Theorem Old_main_no_repositories
    (cwd : string) (fs : Entry) (w : World) :
  old_repos cwd fs = Ok [] ->
  old_main cwd fs w
  = (Raise ValueError,
     mkWorld (stdout w ++ ["Found 0 Git repositories."])%list (stderr w)).
Proof.
  intros Hrepos. unfold Old.main. unfold bind at 1, lift at 1.
  rewrite Hrepos. reflexivity.
Qed.

(** X22: with repositories whose statuses are derived, the older [main] prints
    the count and one line per repository in the order of discovery, not
    sorted, and nothing on standard error. *)
Theorem Old_main_table
    (cwd : string) (fs : Entry) (w : World)
    (repos : list Repository) (statuses : list RepoStatus) :
  old_repos cwd fs = Ok repos ->
  repos <> [] ->
  map_result (fun r => Old.get_status r (Old._truncate_path cwd (path r)))
    repos = Ok statuses ->
  exists name_width head_width,
    py_max (map (fun s => PyStr.len (name s)) statuses) = Ok name_width /\
    py_max (map (fun s => PyStr.len (head s)) statuses) = Ok head_width /\
    List.length statuses = List.length repos /\
    old_main cwd fs w
    = (Ok tt,
       mkWorld
         (stdout w ++
          [("Found " ++ PyStr.str_of_int (Z.of_nat (List.length repos))
            ++ " Git repositories.")%string] ++
          map (fun s => to_string s name_width head_width) statuses)%list
         (stderr w)).
Proof.
  intros Hrepos Hne Hstatuses.
  pose proof (map_result_length _ _ _ Hstatuses) as Hlen.
  assert (Hsne : statuses <> []).
  { intros ->. destruct repos; [contradiction|discriminate]. }
  destruct (py_max_nonempty (map (fun s => PyStr.len (name s)) statuses))
    as [nw Hnw]; [destruct statuses; [contradiction|discriminate]|].
  destruct (py_max_nonempty (map (fun s => PyStr.len (head s)) statuses))
    as [hw Hhw]; [destruct statuses; [contradiction|discriminate]|].
  exists nw, hw. split; [exact Hnw|]. split; [exact Hhw|].
  split; [exact Hlen|].
  unfold Old.main. unfold bind at 1, lift at 1. rewrite Hrepos.
  unfold bind at 1, print at 1. unfold bind at 1.
  rewrite for_each_lift, Hstatuses.
  unfold bind at 1, lift at 1. rewrite Hnw.
  unfold bind at 1, lift at 1. rewrite Hhw.
  unfold bind at 1. rewrite for_each_print. cbn [stdout stderr].
  unfold ret. now rewrite <- app_assoc.
Qed.

End OldMain.

Lemma Old_main_no_repositories_witness :
  Old.main no_discovery no_constructor "/home/empty" (Dir []) empty_world
  = (Raise ValueError,
     mkWorld (stdout empty_world ++ ["Found 0 Git repositories."])%list
       (stderr empty_world)).
Proof.
  apply (Old_main_no_repositories no_discovery no_constructor "/home/empty"
           (Dir []) empty_world).
  reflexivity.
Defined.

Lemma Old_main_table_witness :
  exists name_width head_width,
    py_max (map (fun s => PyStr.len (name s))
              [mkRepoStatus "app" "main" false true true 12 1;
               mkRepoStatus "lib" "(a1b2c3)" true false false 0 0])
    = Ok name_width /\
    py_max (map (fun s => PyStr.len (head s))
              [mkRepoStatus "app" "main" false true true 12 1;
               mkRepoStatus "lib" "(a1b2c3)" true false false 0 0])
    = Ok head_width /\
    List.length [mkRepoStatus "app" "main" false true true 12 1;
                 mkRepoStatus "lib" "(a1b2c3)" true false false 0 0]
    = List.length [app_repo; lib_repo] /\
    Old.main two_repos_discovery mixed_constructor "/work" mixed_tree
      empty_world
    = (Ok tt,
       mkWorld
         (stdout empty_world ++
          [("Found " ++
            PyStr.str_of_int (Z.of_nat (List.length [app_repo; lib_repo]))
            ++ " Git repositories.")%string] ++
          map (fun s => to_string s name_width head_width)
            [mkRepoStatus "app" "main" false true true 12 1;
             mkRepoStatus "lib" "(a1b2c3)" true false false 0 0])%list
         (stderr empty_world)).
Proof.
  apply (Old_main_table two_repos_discovery mixed_constructor "/work"
           mixed_tree empty_world [app_repo; lib_repo]).
  - reflexivity.
  - discriminate.
  - vm_compute. reflexivity.
Defined.

(** ** Discovery accounts for every leaf *)

Lemma Forall2_in_l {A B} (R : A -> B -> Prop) (l : list A) (l' : list B) :
  Forall2 R l l' -> forall a, In a l -> exists b, In b l' /\ R a b.
Proof.
  induction 1 as [|a b l l' Hab _ IH]; intros a' Hin; [destruct Hin|].
  destruct Hin as [<- | Hin].
  - exists b. split; [now left|exact Hab].
  - destruct (IH a' Hin) as (b' & Hb' & HR). exists b'.
    split; [now right|exact HR].
Qed.

Lemma flatten_in {T} (x : T) (sub : list T) (l : list (list T)) :
  In sub l -> In x sub -> In x (_flatten l).
Proof.
  intros Hsub Hx. unfold _flatten. apply in_flat_map. now exists sub.
Qed.

Section Accounting.

Variable discover_repository : string -> option string.
Variable Repository_new : string -> result Repository.

Local Abbreviation walk :=
  (_do_get_git_repos discover_repository Repository_new).

(** X5: when discovery returns, every leaf of the tree is accounted for: it is
    a skipped path or below one, or it lies in a directory where the library
    finds a repository, or it is an outside entry or below one. *)
Theorem discovery_accounts_for_leaves (e : Entry) :
  forall dir repos outside leaf,
    walk dir e = Ok (repos, outside) ->
    In leaf (leaves dir e) ->
    existsb unprocessable (fst leaf :: snd leaf) = true \/
    existsb (in_repository discover_repository) (snd leaf) = true \/
    exists f, In f outside /\ In f (fst leaf :: snd leaf).
Proof.
  induction e as [|entries IH|] using Entry_tree_ind;
    intros dir repos outside leaf; rewrite _do_get_git_repos_eq;
    cbn [leaves].
  - intros Hwalk [<- | []]. cbn [fst snd existsb].
    destruct (unprocessable dir); [now left|].
    injection Hwalk as _ <-. right. right. exists dir. split; now left.
  - intros Hwalk Hleaf.
    apply in_map_iff in Hleaf as (leaf' & <- & Hleaf'). cbn [fst snd].
    destruct (unprocessable dir) eqn:Hguard.
    { left. cbn [existsb]. rewrite Hguard. apply orb_true_r. }
    destruct (in_repository discover_repository dir) eqn:Hdir.
    { right. left. cbn [existsb]. now rewrite Hdir. }
    destruct (map_result _ entries) as [results|] eqn:Hres; [|discriminate].
    apply map_result_Forall2 in Hres. cbn zeta in Hwalk.
    destruct entries as [|ne0 entries0].
    + inversion Hres; subst. cbn in Hwalk. injection Hwalk as _ <-.
      right. right. exists dir. split; [now left|]. right. now left.
    + apply in_flat_map in Hleaf' as (ne & Hne & Hin).
      destruct (Forall2_in_l _ _ _ Hres ne Hne) as ([rs os] & Hr & Hchild).
      rewrite Forall_forall in IH.
      destruct (IH ne Hne _ _ _ _ Hchild Hin) as [Hskip | [Hrepo | Hout]].
      * left. cbn [existsb] in *. apply orb_true_iff in Hskip as [-> | ->];
          [reflexivity|]. now rewrite !orb_true_r.
      * right. left. cbn [existsb]. rewrite Hrepo. apply orb_true_r.
      * right. right. destruct Hout as (f & Hf & Hon).
        destruct (negb _); injection Hwalk as _ <-.
        -- exists f. split.
           ++ apply (flatten_in f os); [|exact Hf].
              apply in_map_iff. now exists (rs, os).
           ++ destruct Hon as [<- | Hon]; [now left|right; now right].
        -- exists dir. split; [now left|]. right. now left.
  - intros Hwalk [<- | []]. cbn [fst snd existsb].
    destruct (unprocessable dir); [now left|].
    destruct (in_repository discover_repository dir); [|discriminate].
    right. now left.
Qed.

End Accounting.

Lemma discovery_accounts_for_leaves_witness :
  existsb unprocessable
    (fst (["work"; "notes"; "a.txt"], [["work"]; ["work"; "notes"]])
     :: snd (["work"; "notes"; "a.txt"], [["work"]; ["work"; "notes"]]))
  = true \/
  existsb (in_repository two_repos_discovery)
    (snd (["work"; "notes"; "a.txt"], [["work"]; ["work"; "notes"]]))
  = true \/
  exists f,
    In f [["work"; "notes"]; ["work"; "zz.txt"]] /\
    In f (fst (["work"; "notes"; "a.txt"], [["work"]; ["work"; "notes"]])
          :: snd (["work"; "notes"; "a.txt"], [["work"]; ["work"; "notes"]])).
Proof.
  apply (discovery_accounts_for_leaves two_repos_discovery mixed_constructor
           mixed_tree ["work"] [app_repo; lib_repo]).
  - reflexivity.
  - right. right. left. reflexivity.
Defined.
